(** * Smart-fallback RAG node: documents first, Wikipedia as fallback

    A shallow embedding of [src/node/reactnode.py] (class [RAGNodes]) and
    the properties of its fallback decision engine.

    Text.  A Python [str] is modelled as a Rocq [string] whose characters
    are the code points 0..255 (Latin-1).  [str.lower] and the regular
    expression class [\w] are modelled on that whole range exactly as
    CPython computes them; code points above 255 are outside the model.

    Effects.  The generation service ([self.llm]), the knowledge lookup
    ([self.wiki_tool]) and the retriever are external: each is a function
    of the history of the run and of its argument, and either returns or
    raises.  What is raised is an instance of [Exception], the class the
    [except] clauses of the code catch; [KeyboardInterrupt] and the like
    are no failures of a collaborator and are left out.  Calls and
    [print]s are recorded in a trace; [RAGState] objects live in a store
    addressed by location, and a node function takes and returns
    references. *)

From Stdlib Require Import Ascii String DecimalString.
From stdpp Require Import base decidable option list gmap strings.

Local Open Scope stdpp_scope.

(** ** Python text primitives *)

Module Py.

(** Line feed and the double quote, which string literals cannot hold
    directly. *)
Definition nl : string := String "010"%char EmptyString.
Definition dq : string := String "034"%char EmptyString.

(** [ord(c)] *)
Definition ord (c : ascii) : nat := nat_of_ascii c.

(** The characters that [str.lower] changes below code point 256:
    A-Z and the Latin-1 capitals U+00C0..U+00DE except the
    multiplication sign U+00D7; each moves up by 32. *)
Definition is_upper (c : ascii) : bool :=
  let n := ord c in
  ((65 <=? n) && (n <=? 90)) || ((192 <=? n) && (n <=? 222) && negb (n =? 215)).

Definition chr_lower (c : ascii) : ascii :=
  if is_upper c then ascii_of_nat (ord c + 32) else c.

(** [s.lower()] *)
Fixpoint lower (s : string) : string :=
  match s with
  | EmptyString => EmptyString
  | String c s' => String (chr_lower c) (lower s')
  end.

(** The class [\w] of a [str] pattern: [c.isalnum() or c == '_'].
    Below code point 256 these are the digits, the ASCII letters, the
    underscore, the ordinal indicators U+00AA and U+00BA, the micro sign
    U+00B5, the superscript digits U+00B2, U+00B3, U+00B9, the vulgar
    fractions U+00BC..U+00BE and the Latin-1 letters U+00C0..U+00FF
    except U+00D7 and U+00F7. *)
Definition is_word (c : ascii) : bool :=
  let n := ord c in
  ((48 <=? n) && (n <=? 57)) || ((65 <=? n) && (n <=? 90)) || (n =? 95)
  || ((97 <=? n) && (n <=? 122))
  || (n =? 170) || (n =? 178) || (n =? 179) || (n =? 181) || (n =? 185)
  || (n =? 186) || ((188 <=? n) && (n <=? 190))
  || ((192 <=? n) && negb (n =? 215) && negb (n =? 247)).

(** [s.startswith(p)] *)
Fixpoint startswith (p s : string) : bool :=
  match p, s with
  | EmptyString, _ => true
  | String a p', String b s' => if decide (a = b) then startswith p' s' else false
  | String _ _, EmptyString => false
  end.

(** [p in s]: [p] occurs in [s] at some offset. *)
Fixpoint contains (p s : string) : bool :=
  startswith p s ||
  match s with
  | EmptyString => false
  | String _ s' => contains p s'
  end.

(** [sep.join(l)] *)
Fixpoint join (sep : string) (l : list string) : string :=
  match l with
  | [] => ""
  | [x] => x
  | x :: l' => x +:+ sep +:+ join sep l'
  end.

(** [s[:n]] *)
Fixpoint str_take (n : nat) (s : string) : string :=
  match n, s with
  | S n', String c s' => String c (str_take n' s')
  | _, _ => ""
  end.

(** [str(n)] for a non-negative [int] *)
Definition str_of_nat (n : nat) : string :=
  NilZero.string_of_uint (Nat.to_uint n).

(** *** [re.findall(r'\b\w+\b', s)]

    The search goes through the text from left to right.  At a position
    it knows whether the character before is a word character
    ([prev_word]; false at the start of the text) and has the rest of the
    text in front of it. *)

(** The rest of the text starts with a word character. *)
Definition starts_word (s : string) : bool :=
  match s with
  | EmptyString => false
  | String c _ => is_word c
  end.

(** [\b]: exactly one of the two sides of the position is a word
    character; the start and the end of the text count as none. *)
Definition word_boundary (prev_word : bool) (s : string) : bool :=
  xorb prev_word (starts_word s).

(** [\w+]: the ways to take one or more word characters from the head of
    the text, each with what is left.  The repetition is greedy, so the
    longest comes first. *)
Fixpoint word_prefixes (s : string) : list (string * string) :=
  match s with
  | EmptyString => []
  | String c s' =>
      if is_word c
      then map (λ '(w, rest), (String c w, rest)) (word_prefixes s')
           ++ [(String c EmptyString, s')]
      else []
  end.

(** The pattern [\b\w+\b] tried at one position: the opening [\b], then
    the first way to take [\w+] after which the closing [\b] holds.  The
    character before the closing [\b] is the last one taken, a word
    character. *)
Definition match_word (prev_word : bool) (s : string) : option (string * string) :=
  if word_boundary prev_word s
  then List.find (λ '(_, rest), word_boundary true rest) (word_prefixes s)
  else None.

(** [findall]: after a match the search goes on where the match ended;
    where the pattern does not match it moves on by one character.  Each
    step takes at least one character or ends the search, so
    [length s + 1] steps are enough. *)
Fixpoint scan_words (fuel : nat) (prev_word : bool) (s : string) : list string :=
  match fuel with
  | 0 => []
  | S fuel' =>
      match match_word prev_word s with
      | Some (w, rest) => w :: scan_words fuel' true rest
      | None =>
          match s with
          | EmptyString => []
          | String c s' => scan_words fuel' (is_word c) s'
          end
      end
  end.

Definition findall_words (s : string) : list string :=
  scan_words (S (String.length s)) false s.

(** ** Predicates on text *)

(** [p] occurs in [s]. *)
Definition occurs_in (p s : string) : Prop := ∃ pre post, s = pre +:+ p +:+ post.

(** Every character of [s] satisfies [P]. *)
Fixpoint chars_all (P : ascii → bool) (s : string) : bool :=
  match s with
  | EmptyString => true
  | String c s' => P c && chars_all P s'
  end.

(** A token: a non-empty text of word characters. *)
Definition is_token (t : string) : Prop := chars_all is_word t = true ∧ t ≠ "".

(** A character that [str.lower] leaves as it is. *)
Definition is_lowered (c : ascii) : bool := bool_decide (chr_lower c = c).

(** The maximal runs of word characters of a text, by structural
    recursion: [runs s] is the run standing at the head of [s] (empty when
    [s] does not start with a word character) and the runs after it. *)
Definition cons_run (w : string) (ws : list string) : list string :=
  match w with
  | EmptyString => ws
  | String _ _ => w :: ws
  end.

Fixpoint runs (s : string) : string * list string :=
  match s with
  | EmptyString => (EmptyString, [])
  | String c s' =>
      let '(w, ws) := runs s' in
      if is_word c then (String c w, ws) else (EmptyString, cons_run w ws)
  end.

Definition word_runs (s : string) : list string :=
  let '(w, ws) := runs s in cons_run w ws.

End Py.

(** ** The pure helpers of [RAGNodes] *)

(** [incomplete_indicators], local to [is_incomplete_answer]. *)
Definition incomplete_indicators : list string :=
  [ "no information";
    "not found";
    "cannot find";
    "not mentioned";
    "not provided";
    "not available";
    "insufficient information";
    "don't have enough";
    "context doesn't contain";
    "not in the documents";
    "need more context";
    "please provide";
    "i need more";
    "cannot answer";
    "unable to answer" ].

(** [RAGNodes.is_incomplete_answer] *)
Definition is_incomplete_answer (answer : string) : bool :=
  let answer_lower := Py.lower answer in
  existsb (fun indicator => Py.contains indicator answer_lower) incomplete_indicators.

(** [stop_words], local to [extract_key_terms]. *)
Definition stop_words : gset string :=
  {[ "what"; "how"; "why"; "when"; "where"; "who"; "which"; "is"; "are";
     "do"; "does"; "can"; "will"; "would"; "should" ]}.

(** The condition of the comprehension in [extract_key_terms]. *)
Definition is_key_word (word : string) : Prop :=
  (word ∉ stop_words) ∧ (2 < String.length word).

#[global] Instance is_key_word_dec word : Decision (is_key_word word).
Proof. unfold is_key_word. apply _. Defined.

(** [RAGNodes.extract_key_terms] *)
Definition extract_key_terms (question : string) : string :=
  let words := Py.findall_words (Py.lower question) in
  let key_words := filter is_key_word words in
  match key_words with
  | [] => question
  | _ :: _ => Py.join " " (take 5 key_words)
  end.

(** The tokens that survive the comprehension of [extract_key_terms]. *)
Definition key_words (question : string) : list string :=
  filter is_key_word (Py.findall_words (Py.lower question)).

(** ** Data model *)

(** A langchain [Document]: its text and its metadata mapping.  A metadata
    value is kept as the text an f-string renders for it; [None] stands
    for an object without a [metadata] attribute. *)
Record Document := mkDocument {
  page_content : string;
  metadata : option (gmap string string)
}.

(** Modelled from the spec: the declaration of [RAGState]
    ([src/state/rag_state.py]) is not among the sources; the spec gives the
    turn as [{question, retrieved_chunks (ordered sequence), answer
    (optional string)}], and the constructor calls of [reactnode.py] give
    the field names. *)
Record RAGState := mkRAGState {
  question : string;
  retrieved_docs : list Document;
  answer : option string
}.

(** What [self.llm.invoke] hands back: a message object with a [content]
    attribute, or any other object, of which the code takes [str(...)]. *)
Inductive Response :=
  | Message (content : string)
  | OtherObject (as_str : string).

(** A raised [Exception]; [exc_str e] is [str(e)]. *)
Record Exception := mkException { exc_str : string }.

Inductive Outcome (A : Type) :=
  | Returned (a : A)
  | Raised (e : Exception).
Arguments Returned {A} a.
Arguments Raised {A} e.

(** ** Effects *)

Inductive Event :=
  | EvPrint (line : string)
  | EvRetrieve (query : string)
  | EvLlmInvoke (prompt : string)
  | EvWikiRun (query : string).

(** The attributes of [self] set by [__init__].  Each collaborator answers
    from the events so far and its argument. *)
Record RAGNodes := mkRAGNodes {
  retriever : list Event → string → Outcome (list Document);
  llm : list Event → string → Outcome Response;
  wiki_tool : list Event → string → Outcome string
}.

(** References to [RAGState] objects are indices into the store. *)
Abbreviation loc := nat (only parsing).

Record World := mkWorld {
  trace : list Event;
  store : list RAGState
}.

Definition M (A : Type) : Type := World → Outcome A * World.

#[global] Instance M_ret : MRet M := λ A a w, (Returned a, w).

#[global] Instance M_bind : MBind M := λ A B f m w,
  match m w with
  | (Returned a, w') => f a w'
  | (Raised e, w') => (Raised e, w')
  end.

Definition emit (ev : Event) (w : World) : World :=
  mkWorld (trace w ++ [ev]) (store w).

(** [print(line)] *)
Definition print (line : string) : M unit :=
  λ w, (Returned (), emit (EvPrint line) w).

(** Calling a collaborator: the call is recorded, then it returns or
    raises. *)
Definition call {A} (ev : Event) (service : list Event → Outcome A) : M A :=
  λ w, (service (trace w), emit ev w).

Definition retriever_invoke (self : RAGNodes) (query : string) : M (list Document) :=
  call (EvRetrieve query) (λ h, retriever self h query).

Definition llm_invoke (self : RAGNodes) (prompt : string) : M Response :=
  call (EvLlmInvoke prompt) (λ h, llm self h prompt).

Definition wiki_tool_run (self : RAGNodes) (query : string) : M string :=
  call (EvWikiRun query) (λ h, wiki_tool self h query).

(** [try: body  except Exception as e: handler e] *)
Definition try_except {A} (body : M A) (handler : Exception → M A) : M A :=
  λ w, match body w with
       | (Returned a, w') => (Returned a, w')
       | (Raised e, w') => handler e w'
       end.

(** Reading an attribute of the object a reference points to.  A reference
    held by running code always points into the store; the exception is
    the model's answer for an index that does not. *)
Definition getattr {A} (field : RAGState → A) (state : loc) : M A :=
  λ w, match store w !! state with
       | Some st => (Returned (field st), w)
       | None => (Raised (mkException "dangling reference"), w)
       end.

(** [RAGState(question=..., retrieved_docs=..., answer=...)]: a new object. *)
Definition new_RAGState (st : RAGState) : M loc :=
  λ w, (Returned (length (store w)), mkWorld (trace w) (store w ++ [st])).

(** [response.content if hasattr(response, 'content') else str(response)] *)
Definition response_text (response : Response) : string :=
  match response with
  | Message content => content
  | OtherObject as_str => as_str
  end.

(** ** The node functions of [RAGNodes] *)

(** [RAGNodes.retrieve_docs] *)
Definition retrieve_docs (self : RAGNodes) (state : loc) : M loc :=
  q ← getattr question state;
  docs ← retriever_invoke self q;
  print ("DEBUG: Retrieved " +:+ Py.str_of_nat (length docs)
         +:+ " documents from uploaded content");;
  q ← getattr question state;
  new_RAGState (mkRAGState q docs None).

(** One entry of [context_parts]; [i] counts from 1. *)
Definition context_part (i : nat) (doc : Document) : string :=
  let meta := default ∅ (metadata doc) in
  let source :=
    default (default ("Document " +:+ Py.str_of_nat i) (meta !! "title"))
            (meta !! "source") in
  "[Document " +:+ Py.str_of_nat i +:+ " - " +:+ source +:+ "]" +:+ Py.nl
  +:+ page_content doc.

(** The prompt for the document-only answer. *)
Definition document_prompt (full_context q : string) : string :=
  Py.join Py.nl
    [ "Answer the user's question based on the provided context from uploaded documents.";
      "";
      "CONTEXT FROM UPLOADED DOCUMENTS:";
      full_context;
      "";
      "USER QUESTION: " +:+ q;
      "";
      "INSTRUCTIONS:";
      "- Answer based on the provided context above";
      "- If the context contains the answer, provide a comprehensive response";
      "- If the context doesn't contain enough information, clearly state "
        +:+ Py.dq
        +:+ "The uploaded documents don't contain sufficient information about [topic]."
        +:+ Py.dq;
      "- Be specific about what information is missing";
      "";
      "ANSWER:" ].

Definition no_documents_answer : string :=
  "No relevant documents found in uploaded content.".

(** [RAGNodes.answer_with_documents] *)
Definition answer_with_documents (self : RAGNodes) (state : loc) : M string :=
  docs ← getattr retrieved_docs state;
  match docs with
  | [] => mret no_documents_answer
  | _ :: _ =>
      docs ← getattr retrieved_docs state;
      let context_parts := imap (λ i doc, context_part (S i) doc) docs in
      let full_context := Py.join (Py.nl +:+ Py.nl) context_parts in
      q ← getattr question state;
      let prompt := document_prompt full_context q in
      try_except
        (response ← llm_invoke self prompt;
         mret (response_text response))
        (λ e, mret ("Error processing documents: " +:+ exc_str e))
  end.

(** The prompt that combines the document answer with the Wikipedia text. *)
Definition combined_prompt (q doc_answer wiki_content : string) : string :=
  Py.join Py.nl
    [ "You are answering a question where the user's uploaded documents had limited information.";
      "";
      "ORIGINAL QUESTION: " +:+ q;
      "";
      "ANSWER FROM UPLOADED DOCUMENTS:";
      doc_answer;
      "";
      "ADDITIONAL WIKIPEDIA INFORMATION:";
      wiki_content;
      "";
      "INSTRUCTIONS:";
      "- First acknowledge what was found in the uploaded documents";
      "- Then supplement with relevant Wikipedia information";
      "- Clearly distinguish between information from documents vs. Wikipedia";
      "- Provide a comprehensive answer combining both sources";
      "- Format as: " +:+ Py.dq
        +:+ "Based on your uploaded documents: [doc info]. Additionally, from general knowledge: [wiki info]."
        +:+ Py.dq;
      "";
      "FINAL ANSWER:" ].

(** The note appended to the document answer when the fallback fails. *)
Definition wikipedia_failure_note (e : Exception) : string :=
  Py.nl +:+ Py.nl
  +:+ "Note: Could not retrieve additional information from Wikipedia due to error: "
  +:+ exc_str e.

(** [RAGNodes.answer_with_wikipedia] *)
Definition answer_with_wikipedia (self : RAGNodes) (state : loc)
    (doc_answer : string) : M string :=
  print "DEBUG: Using Wikipedia fallback for additional information";;
  q ← getattr question state;
  let wiki_query := extract_key_terms q in
  try_except
    (wiki_content ← wiki_tool_run self wiki_query;
     q ← getattr question state;
     let prompt := combined_prompt q doc_answer wiki_content in
     response ← llm_invoke self prompt;
     mret (response_text response))
    (λ e, mret (doc_answer +:+ wikipedia_failure_note e)).

(** [RAGNodes.generate_answer] *)
Definition generate_answer (self : RAGNodes) (state : loc) : M loc :=
  docs ← getattr retrieved_docs state;
  print ("DEBUG: Starting smart fallback approach with "
         +:+ Py.str_of_nat (length docs) +:+ " retrieved docs");;
  doc_answer ← answer_with_documents self state;
  print ("DEBUG: Document answer: " +:+ Py.str_take 100 doc_answer +:+ "...");;
  final_answer ←
    (if is_incomplete_answer doc_answer then
       print "DEBUG: Document answer incomplete, trying Wikipedia fallback";;
       answer_with_wikipedia self state doc_answer
     else
       print "DEBUG: Document answer sufficient, using document-only response";;
       mret doc_answer);
  q ← getattr question state;
  docs ← getattr retrieved_docs state;
  new_RAGState (mkRAGState q docs (Some final_answer)).

(** ** Observing a run *)

(** The prompt [answer_with_documents] builds for a turn. *)
Definition document_prompt_of (st : RAGState) : string :=
  document_prompt
    (Py.join (Py.nl +:+ Py.nl) (imap (λ i doc, context_part (S i) doc) (retrieved_docs st)))
    (question st).

Definition document_error (e : Exception) : string :=
  "Error processing documents: " +:+ exc_str e.

Definition is_wiki_run (ev : Event) : bool :=
  match ev with EvWikiRun _ => true | _ => false end.

Definition is_llm_invoke (ev : Event) : bool :=
  match ev with EvLlmInvoke _ => true | _ => false end.

(** How often the knowledge lookup, or the generation service, was called
    in a sequence of events. *)
Definition wiki_runs (evs : list Event) : nat := length (List.filter is_wiki_run evs).
Definition llm_invocations (evs : list Event) : nat := length (List.filter is_llm_invoke evs).

(** The events a run added, from the world before it to the world after. *)
Definition events_since (w w' : World) : list Event := drop (length (trace w)) (trace w').

(** From [w] to [w'] nothing happened but [print]s. *)
Definition prints_only (w w' : World) : Prop :=
  store w' = store w ∧ ∃ lines, trace w' = trace w ++ (EvPrint <$> lines).

(** ** Test doubles *)

(** Collaborators that answer with fixed texts. *)
Definition answering_nodes (llm_text wiki_text : string) : RAGNodes :=
  mkRAGNodes (λ _ _, Returned [])
             (λ _ _, Returned (Message llm_text))
             (λ _ _, Returned wiki_text).

(** A generation service that raises on every call. *)
Definition failing_llm_nodes (detail wiki_text : string) : RAGNodes :=
  mkRAGNodes (λ _ _, Returned [])
             (λ _ _, Raised (mkException detail))
             (λ _ _, Returned wiki_text).

(** A knowledge lookup that raises on every call. *)
Definition failing_wiki_nodes (llm_text detail : string) : RAGNodes :=
  mkRAGNodes (λ _ _, Returned [])
             (λ _ _, Returned (Message llm_text))
             (λ _ _, Raised (mkException detail)).

(** A store with one turn, at location 0, and no event yet. *)
Definition one_turn (q : string) (docs : list Document) : World :=
  mkWorld [] [mkRAGState q docs None].

Definition paris_doc : Document :=
  mkDocument "Paris is the capital of France." (Some {[ "source" := "atlas.txt" ]}).

Definition france_question : string :=
  "What is the capital of France and why is it important?".

(** ** The ReAct alternative *)

(** One entry of [context_parts] in [document_tool]: the label is the
    [source] entry or "Document i", and the text is cut at 800
    characters. *)
Definition tool_context_part (i : nat) (doc : Document) : string :=
  let meta := default ∅ (metadata doc) in
  let source := default ("Document " +:+ Py.str_of_nat i) (meta !! "source") in
  "[" +:+ source +:+ "]" +:+ Py.nl +:+ Py.str_take 800 (page_content doc).

Definition no_documents_tool_answer : string :=
  "No documents available from uploads.".

(** [document_tool], local to [generate_answer_with_react_agent]; it
    reads the turn the enclosing call was given. *)
Definition document_tool (state : loc) (query : string) : M string :=
  docs ← getattr retrieved_docs state;
  match docs with
  | [] => mret no_documents_tool_answer
  | _ :: _ =>
      docs ← getattr retrieved_docs state;
      let context_parts := imap (λ i doc, tool_context_part (S i) doc) docs in
      mret ("UPLOADED DOCUMENTS:" +:+ Py.nl +:+ Py.nl
            +:+ Py.join (Py.nl +:+ Py.nl) context_parts)
  end.

(** [wikipedia_tool], local to [generate_answer_with_react_agent]. *)
Definition wikipedia_tool (self : RAGNodes) (query : string) : M string :=
  try_except
    (wiki_tool_run self query)
    (λ e, mret ("Wikipedia search failed: " +:+ exc_str e)).

(** A langchain [Tool]. *)
Record Tool := mkTool {
  tool_name : string;
  tool_description : string;
  tool_func : string → M string
}.

(** A message of the agent's result; [None] stands for an object without
    a [content] attribute. *)
Record AgentMessage := mkAgentMessage { msg_content : option string }.

(** The mapping [agent.invoke] returns; [None] stands for a mapping
    without the key "messages". *)
Record AgentResult := mkAgentResult { result_messages : option (list AgentMessage) }.

(** [create_react_agent(self.llm, tools=..., prompt=...)] followed by
    [invoke] on one human message: the agent framework is external.  It
    gets the tools, the system prompt and the text of the message, runs
    as it likes, calling the tools or not, and returns a result or
    raises. *)
Definition ReactAgent : Type := list Tool → string → string → M AgentResult.

Definition react_system_prompt : string :=
  Py.join Py.nl
    [ "You are a smart RAG assistant. Follow this strategy:";
      "";
      "1. ALWAYS start by using 'uploaded_documents' tool to check user's documents";
      "2. If documents have sufficient info, answer based on them";
      "3. ONLY if documents lack information, use 'wikipedia_search' for additional context";
      "4. Always cite your sources clearly (documents vs Wikipedia)";
      "5. Prioritize user's documents over general knowledge";
      "";
      "Be intelligent about tool selection - don't use Wikipedia unless necessary." ].

Definition no_agent_answer : string := "Could not generate answer.".

(** The answer taken from the agent's result. *)
Definition agent_answer (result : AgentResult) : string :=
  let messages := default [] (result_messages result) in
  match last messages with
  | None => no_agent_answer
  | Some answer_msg => default no_agent_answer (msg_content answer_msg)
  end.

(** The list [tools] of [generate_answer_with_react_agent]. *)
Definition react_tools (self : RAGNodes) (state : loc) : list Tool :=
  [ mkTool "uploaded_documents"
      "Search and retrieve information from the user's uploaded documents. ALWAYS try this FIRST."
      (document_tool state);
    mkTool "wikipedia_search"
      "Search Wikipedia for general knowledge. Use this ONLY if uploaded documents don't have sufficient information."
      (wikipedia_tool self) ].

(** [RAGNodes.generate_answer_with_react_agent] *)
Definition generate_answer_with_react_agent (self : RAGNodes) (agent : ReactAgent)
    (state : loc) : M loc :=
  let tools := react_tools self state in
  q ← getattr question state;
  result ← agent tools react_system_prompt q;
  let answer := agent_answer result in
  q ← getattr question state;
  docs ← getattr retrieved_docs state;
  new_RAGState (mkRAGState q docs (Some answer)).

(** How often the retriever was called in a sequence of events. *)
Definition is_retrieve (ev : Event) : bool :=
  match ev with EvRetrieve _ => true | _ => false end.

Definition retrievals (evs : list Event) : nat := length (List.filter is_retrieve evs).

(** ** Document ingestion ([src/document_ingestion/document_processor.py]) *)

Module Ingestion.

(** An argument of type [Union[str, Path]].  A [Path] object is kept as
    the text [str] gives for it. *)
Inductive PathLike :=
  | PStr (s : string)
  | PPath (p : string).

(** [str(x)], also what an f-string shows *)
Definition path_text (x : PathLike) : string :=
  match x with
  | PStr s => s
  | PPath p => p
  end.

(** What the ingestion code does to the outside. *)
Inductive IoEvent :=
  | IoPrint (line : string)
  | FsExists (path : string)
  | FsIsFile (path : string)
  | FsIsDir (path : string)
  | WebLoad (url : string)
  | PdfDirLoad (directory : string)
  | TextLoad (path : string)
  | PdfLoad (path : string)
  | SplitDocs (documents : list Document).

(** The libraries and the file system: [pathlib], and the loaders of
    langchain, each created and asked to [load()] in one step.  A query
    or a loader answers from the events so far and its argument. *)
Record Library := mkLibrary {
  path_normal : string → string;
  path_suffix : string → string;
  fs_exists : list IoEvent → string → Outcome bool;
  fs_is_file : list IoEvent → string → Outcome bool;
  fs_is_dir : list IoEvent → string → Outcome bool;
  web_base_loader : list IoEvent → string → Outcome (list Document);
  py_pdf_directory_loader : list IoEvent → string → Outcome (list Document);
  text_loader : list IoEvent → string → Outcome (list Document);
  py_pdf_loader : list IoEvent → string → Outcome (list Document)
}.

(** The attributes of a [DocumentProcessor]; [splitter] stands for
    [self.splitter.split_documents]. *)
Record DocumentProcessor := mkDocumentProcessor {
  chunk_size : nat;
  chunk_overlap : nat;
  splitter : list IoEvent → list Document → Outcome (list Document)
}.

Definition IO (A : Type) : Type := list IoEvent → Outcome A * list IoEvent.

#[global] Instance IO_ret : MRet IO := λ A a h, (Returned a, h).

#[global] Instance IO_bind : MBind IO := λ A B f m h,
  match m h with
  | (Returned a, h') => f a h'
  | (Raised e, h') => (Raised e, h')
  end.

Definition io_print (line : string) : IO unit :=
  λ h, (Returned (), h ++ [IoPrint line]).

Definition io_call {A} (ev : IoEvent) (service : list IoEvent → Outcome A) : IO A :=
  λ h, (service h, h ++ [ev]).

(** [raise ValueError(message)] *)
Definition io_raise {A} (message : string) : IO A :=
  λ h, (Raised (mkException message), h).

(** [try: body  except Exception as e: handler e] *)
Definition io_try {A} (body : IO A) (handler : Exception → IO A) : IO A :=
  λ h, match body h with
       | (Returned a, h') => (Returned a, h')
       | (Raised e, h') => handler e h'
       end.

(** [Path(x)] *)
Definition to_path (lib : Library) (x : PathLike) : string :=
  match x with
  | PStr s => path_normal lib s
  | PPath p => p
  end.

(** [DocumentProcessor.load_from_url] *)
Definition load_from_url (lib : Library) (url : string) : IO (list Document) :=
  io_try
    (io_call (WebLoad url) (λ h, web_base_loader lib h url))
    (λ e, io_print ("Error loading URL " +:+ url +:+ ": " +:+ exc_str e);;
          mret []).

(** [DocumentProcessor.load_from_pdf_dir] *)
Definition load_from_pdf_dir (lib : Library) (directory : PathLike) : IO (list Document) :=
  io_try
    (io_call (PdfDirLoad (path_text directory))
       (λ h, py_pdf_directory_loader lib h (path_text directory)))
    (λ e, io_print ("Error loading PDF directory " +:+ path_text directory +:+ ": "
                    +:+ exc_str e);;
          mret []).

(** [DocumentProcessor.load_from_txt] *)
Definition load_from_txt (lib : Library) (file_path : PathLike) : IO (list Document) :=
  io_try
    (io_call (TextLoad (path_text file_path))
       (λ h, text_loader lib h (path_text file_path)))
    (λ e, io_print ("Error loading TXT file " +:+ path_text file_path +:+ ": "
                    +:+ exc_str e);;
          mret []).

(** [DocumentProcessor.load_from_pdf] *)
Definition load_from_pdf (lib : Library) (file_path : PathLike) : IO (list Document) :=
  io_try
    (io_call (PdfLoad (path_text file_path))
       (λ h, py_pdf_loader lib h (path_text file_path)))
    (λ e, io_print ("Error loading PDF file " +:+ path_text file_path +:+ ": "
                    +:+ exc_str e);;
          mret []).

(** [DocumentProcessor.load_from_file] *)
Definition load_from_file (lib : Library) (file_path : PathLike) : IO (list Document) :=
  let file_path := to_path lib file_path in
  found ← io_call (FsExists file_path) (λ h, fs_exists lib h file_path);
  if negb found then
    io_print ("File does not exist: " +:+ file_path);;
    mret []
  else
    let extension := Py.lower (path_suffix lib file_path) in
    if decide (extension = ".pdf") then
      load_from_pdf lib (PPath file_path)
    else if decide (extension ∈ [".txt"; ".md"]) then
      load_from_txt lib (PPath file_path)
    else
      io_print ("Unsupported file type: " +:+ extension);;
      mret [].

(** [for x in items: docs.extend(load(x))], from the list [docs]. *)
Fixpoint extend_each {A} (load : A → IO (list Document)) (items : list A)
    (docs : list Document) : IO (list Document) :=
  match items with
  | [] => mret docs
  | x :: rest =>
      loaded ← load x;
      extend_each load rest (docs ++ loaded)
  end.

(** The body of the loop of [load_documents] for one source. *)
Definition load_source (lib : Library) (src : string) : IO (list Document) :=
  if Py.startswith "http://" src || Py.startswith "https://" src then
    load_from_url lib src
  else
    let path := path_normal lib src in
    file ← io_call (FsIsFile path) (λ h, fs_is_file lib h path);
    if file : bool then
      load_from_file lib (PPath path)
    else
      dir ← io_call (FsIsDir path) (λ h, fs_is_dir lib h path);
      if dir : bool then
        load_from_pdf_dir lib (PPath path)
      else
        io_print ("Path does not exist: " +:+ src);;
        mret [].

(** [DocumentProcessor.load_documents] *)
Definition load_documents (lib : Library) (sources : list string) : IO (list Document) :=
  extend_each (load_source lib) sources [].

(** [DocumentProcessor.split_documents] *)
Definition split_documents (self : DocumentProcessor) (documents : list Document)
    : IO (list Document) :=
  match documents with
  | [] => mret []
  | _ :: _ => io_call (SplitDocs documents) (λ h, splitter self h documents)
  end.

(** [DocumentProcessor.process_files] *)
Definition process_files (lib : Library) (self : DocumentProcessor)
    (file_paths : list string) : IO (list Document) :=
  docs ← extend_each (λ file_path, load_from_file lib (PStr file_path)) file_paths [];
  match docs with
  | [] => io_raise "No documents could be loaded from the provided files"
  | _ :: _ => split_documents self docs
  end.

(** [DocumentProcessor.process_urls] *)
Definition process_urls (lib : Library) (self : DocumentProcessor)
    (urls : list string) : IO (list Document) :=
  docs ← extend_each (load_from_url lib) urls [];
  match docs with
  | [] => io_raise "No documents could be loaded from the provided URLs"
  | _ :: _ => split_documents self docs
  end.

(** [DocumentProcessor.process_mixed_sources] *)
Definition process_mixed_sources (lib : Library) (self : DocumentProcessor)
    (sources : list string) : IO (list Document) :=
  docs ← load_documents lib sources;
  match docs with
  | [] => io_raise "No documents could be loaded from the provided sources"
  | _ :: _ => split_documents self docs
  end.

(** The loader calls among the events. *)
Definition is_load (ev : IoEvent) : bool :=
  match ev with
  | WebLoad _ | PdfDirLoad _ | TextLoad _ | PdfLoad _ => true
  | _ => false
  end.

(** The file-system queries among the events. *)
Definition is_fs_query (ev : IoEvent) : bool :=
  match ev with
  | FsExists _ | FsIsFile _ | FsIsDir _ => true
  | _ => false
  end.

Definition is_split (ev : IoEvent) : bool :=
  match ev with SplitDocs _ => true | _ => false end.

End Ingestion.

(** Collaborators with a retriever that returns the given documents. *)
Definition retrieving_nodes (docs : list Document) (llm_text wiki_text : string)
    : RAGNodes :=
  mkRAGNodes (λ _ _, Returned docs)
             (λ _ _, Returned (Message llm_text))
             (λ _ _, Returned wiki_text).

(** A retriever that raises on every call. *)
Definition failing_retriever_nodes (detail : string) : RAGNodes :=
  mkRAGNodes (λ _ _, Raised (mkException detail))
             (λ _ _, Returned (Message "unused"))
             (λ _ _, Returned "unused").

(** A library for examples: paths are kept as they are, three names
    have a suffix, "missing.txt" does not exist, one URL is down, and
    every other load gives one document that holds the path or URL. *)
Definition example_library : Ingestion.Library :=
  Ingestion.mkLibrary
    (λ s, s)
    (λ p, if decide (p = "notes.docx") then ".docx"
          else if decide (p = "paper.PDF") then ".PDF"
          else if decide (p = "missing.txt") then ".txt"
          else "")
    (λ _ p, Returned (bool_decide (p ≠ "missing.txt")))
    (λ _ _, Returned true)
    (λ _ _, Returned false)
    (λ _ url, if decide (url = "https://down.example")
              then Raised (mkException "timed out")
              else Returned [mkDocument url None])
    (λ _ _, Returned [])
    (λ _ p, Returned [mkDocument p None])
    (λ _ p, Returned [mkDocument p None]).

(** A processor whose splitter hands the documents back. *)
Definition example_processor : Ingestion.DocumentProcessor :=
  Ingestion.mkDocumentProcessor 500 50 (λ _ documents, Returned documents).

(** An agent that consults the document tool with the question and answers
    with what the tool returned. *)
Definition document_agent : ReactAgent :=
  λ tools system_prompt q,
    match tools with
    | tool :: _ =>
        text ← tool_func tool q;
        mret (mkAgentResult (Some [mkAgentMessage (Some q); mkAgentMessage (Some text)]))
    | [] => mret (mkAgentResult None)
    end.

(** An agent that fails. *)
Definition failing_agent (detail : string) : ReactAgent :=
  λ tools system_prompt q w, (Raised (mkException detail), w).

(** * Properties *)

(** ** Text *)

Module PyFacts.
Import Py.

#[local] Arguments String.append !_ _ / : simpl nomatch.

Lemma str_app_nil_r s : s +:+ "" = s.
Proof. induction s as [|c s IH]; simpl; [done | by rewrite IH]. Qed.

Lemma str_app_assoc s1 s2 s3 : (s1 +:+ s2) +:+ s3 = s1 +:+ s2 +:+ s3.
Proof. induction s1 as [|c s1 IH]; simpl; [done | by rewrite IH]. Qed.

Lemma str_app_length s1 s2 :
  String.length (s1 +:+ s2) = String.length s1 + String.length s2.
Proof. induction s1 as [|c s1 IH]; simpl; [done | by rewrite IH]. Qed.

(** *** [lower] *)

Lemma chr_lower_idemp c : chr_lower (chr_lower c) = chr_lower c.
Proof. by destruct c as [[] [] [] [] [] [] [] []]. Qed.

Lemma lower_app s1 s2 : lower (s1 +:+ s2) = lower s1 +:+ lower s2.
Proof. induction s1 as [|c s1 IH]; simpl; [done | by rewrite IH]. Qed.

Lemma lower_idemp s : lower (lower s) = lower s.
Proof.
  induction s as [|c s IH]; simpl; [done |].
  by rewrite chr_lower_idemp, IH.
Qed.

(** A split of the lower-cased text is the image of a split of the text. *)
Lemma lower_app_inv s x y :
  lower s = x +:+ y → ∃ s1 s2, s = s1 +:+ s2 ∧ lower s1 = x ∧ lower s2 = y.
Proof.
  revert s. induction x as [|c x IH]; intros s Hs.
  - by exists "", s.
  - destruct s as [|d s]; simpl in Hs; [done |].
    injection Hs as Hc Hs.
    destruct (IH _ Hs) as (s1 & s2 & -> & <- & <-).
    exists (String d s1), s2. by rewrite <- Hc.
Qed.

(** *** [startswith] and [in] *)

Lemma startswith_spec p s : startswith p s = true ↔ ∃ post, s = p +:+ post.
Proof.
  revert s. induction p as [|a p IH]; intros s; simpl.
  - split; [by exists s | done].
  - destruct s as [|b s].
    + split; [done | by intros [post ?]].
    + destruct (decide (a = b)) as [->|Hne].
      * rewrite IH. split.
        -- intros [post ->]. by exists post.
        -- intros [post [= ->]]. by exists post.
      * split; [done | intros [post [= ? ?]]; done].
Qed.

Lemma contains_spec p s : contains p s = true ↔ occurs_in p s.
Proof.
  induction s as [|c s IH].
  - simpl. rewrite orb_false_r, startswith_spec. split.
    + intros [post H]. by exists "", post.
    + intros (pre & post & H). destruct pre; [by exists post | done].
  - cbn [contains]. rewrite orb_true_iff, startswith_spec, IH. split.
    + intros [[post H] | (pre & post & ->)].
      * by exists "", post.
      * by exists (String c pre), post.
    + intros (pre & post & H). destruct pre as [|d pre].
      * left. by exists post.
      * right. injection H as -> ->. by exists pre, post.
Qed.

(** *** Maximal runs of word characters *)

Lemma runs_word_app w s :
  chars_all is_word w = true → runs (w +:+ s) = (w +:+ (runs s).1, (runs s).2).
Proof.
  induction w as [|c w IH]; simpl; intros Hw.
  - by destruct (runs s).
  - apply andb_true_iff in Hw as [Hc Hw].
    rewrite (IH Hw), Hc. done.
Qed.

Lemma runs_nonword c s :
  is_word c = false → runs (String c s) = ("", word_runs s).
Proof. intros Hc. unfold word_runs. simpl. rewrite Hc. by destruct (runs s). Qed.

Lemma word_runs_empty : word_runs "" = [].
Proof. done. Qed.

(** A character that is not a word character separates and is dropped. *)
Lemma word_runs_nonword c s :
  is_word c = false → word_runs (String c s) = word_runs s.
Proof. intros Hc. unfold word_runs at 1. by rewrite runs_nonword. Qed.

(** A run of word characters that ends the text is one match. *)
Lemma word_runs_token t : is_token t → word_runs t = [t].
Proof.
  intros [Ht Hne]. unfold word_runs.
  rewrite <- (str_app_nil_r t) at 1. rewrite (runs_word_app _ _ Ht). simpl.
  rewrite str_app_nil_r. by destruct t.
Qed.

(** A run of word characters closed by another character is one match,
    and the search goes on after it. *)
Lemma word_runs_token_sep t c s :
  is_token t → is_word c = false →
  word_runs (t +:+ String c s) = t :: word_runs s.
Proof.
  intros [Ht Hne] Hc. unfold word_runs at 1.
  rewrite (runs_word_app _ _ Ht), (runs_nonword _ _ Hc). simpl.
  rewrite str_app_nil_r. by destruct t.
Qed.

(** Every match is a token, and keeps any property that all the
    characters of the text have. *)
Lemma runs_chars_all P s :
  chars_all P s = true →
  chars_all P (runs s).1 = true ∧ Forall (λ t, chars_all P t = true) (runs s).2.
Proof.
  induction s as [|c s IH]; simpl; [done |].
  intros [Hc Hs]%andb_true_iff. destruct (IH Hs) as [Hw Hws].
  destruct (runs s) as [w ws]. simpl in *.
  destruct (is_word c); simpl.
  - by rewrite Hc, Hw.
  - split; [done |]. destruct w; [done | by constructor].
Qed.

Lemma word_runs_chars_all P s :
  chars_all P s = true → Forall (λ t, chars_all P t = true) (word_runs s).
Proof.
  intros Hs. destruct (runs_chars_all P s Hs) as [Hw Hws].
  unfold word_runs. destruct (runs s) as [w ws]. simpl in *.
  destruct w; [done | by constructor].
Qed.

Lemma runs_tokens s :
  chars_all is_word (runs s).1 = true ∧ Forall is_token (runs s).2.
Proof.
  induction s as [|c s [Hw Hws]]; simpl; [done |].
  destruct (runs s) as [w ws]. simpl in *.
  destruct (is_word c) eqn:Hc; simpl.
  - by rewrite Hc, Hw.
  - split; [done |]. destruct w; [done |]. by constructor.
Qed.

Lemma word_runs_tokens s : Forall is_token (word_runs s).
Proof.
  destruct (runs_tokens s) as [Hw Hws].
  unfold word_runs. destruct (runs s) as [w ws]. simpl in *.
  destruct w; [done |]. by constructor.
Qed.

(** *** [join] *)

Lemma join_cons sep x y l : join sep (x :: y :: l) = x +:+ sep +:+ join sep (y :: l).
Proof. done. Qed.

Lemma join_length_ge sep x l : String.length x ≤ String.length (join sep (x :: l)).
Proof. destruct l; [done |]. rewrite join_cons, str_app_length. lia. Qed.

(** Searching the words of tokens joined by single spaces gives the
    tokens back. *)
Lemma word_runs_join ts : Forall is_token ts → word_runs (join " " ts) = ts.
Proof.
  induction 1 as [|t ts Ht Hts IH]; [done |].
  destruct ts as [|t' ts].
  - by apply word_runs_token.
  - rewrite join_cons. change (" " +:+ ?s) with (String " "%char s).
    rewrite word_runs_token_sep, IH; done.
Qed.

(** *** Lower-cased text *)

Lemma lower_chars_all s : chars_all is_lowered (lower s) = true.
Proof.
  induction s as [|c s IH]; simpl; [done |]. rewrite IH, andb_true_r.
  apply bool_decide_eq_true, chr_lower_idemp.
Qed.

Lemma lower_fixed s : chars_all is_lowered s = true → lower s = s.
Proof.
  induction s as [|c s IH]; simpl; [done |].
  intros [Hc%bool_decide_eq_true Hs]%andb_true_iff. by rewrite Hc, IH.
Qed.

Lemma lower_join sep ts :
  lower sep = sep → Forall (λ t, lower t = t) ts → lower (join sep ts) = join sep ts.
Proof.
  intros Hsep. induction 1 as [|t ts Ht Hts IH]; [done |].
  destruct ts as [|t' ts]; [done |].
  by rewrite join_cons, !lower_app, Ht, Hsep, IH.
Qed.

(** *** The search for [\b\w+\b] finds the maximal runs *)

Lemma find_app {A} (f : A → bool) (l1 l2 : list A) :
  List.find f (l1 ++ l2)
  = match List.find f l1 with Some x => Some x | None => List.find f l2 end.
Proof. induction l1 as [|x l1 IH]; simpl; [done |]. by destruct (f x). Qed.

Lemma find_map {A B} (f : B → bool) (f' : A → bool) (g : A → B) (l : list A) :
  (∀ x, f (g x) = f' x) → List.find f (map g l) = g <$> List.find f' l.
Proof.
  intros Hf. induction l as [|x l IH]; simpl; [done |].
  rewrite Hf. by destruct (f' x).
Qed.

Lemma starts_word_app_token w rest :
  is_token w → starts_word (w +:+ rest) = true.
Proof. intros [Hw Hne]. destruct w; [done |]. simpl in *. by destruct (is_word _). Qed.

Lemma word_prefixes_nonword s : starts_word s = false → word_prefixes s = [].
Proof. destruct s; simpl; [done |]. by intros ->. Qed.

(** Where no word starts the pattern does not match. *)
Lemma match_word_nonword prev_word s :
  starts_word s = false → match_word prev_word s = None.
Proof.
  intros Hs. unfold match_word. rewrite (word_prefixes_nonword _ Hs).
  by destruct (word_boundary _ _).
Qed.

(** Of the ways to take [\w+] only the longest is followed by [\b]. *)
Lemma find_closing_boundary w rest :
  is_token w → starts_word rest = false →
  List.find (λ '(_, rest), word_boundary true rest) (word_prefixes (w +:+ rest))
  = Some (w, rest).
Proof.
  intros [Hw Hne] Hrest. induction w as [|c w IH]; [done |].
  simpl in Hw. apply andb_true_iff in Hw as [Hc Hw].
  simpl. rewrite Hc, find_app.
  rewrite (find_map _ (λ '(_, rest), word_boundary true rest)) by by intros [? ?].
  destruct w as [|d w].
  - simpl. rewrite (word_prefixes_nonword _ Hrest). simpl.
    unfold word_boundary. by rewrite Hrest.
  - by rewrite IH.
Qed.

(** At the start of a maximal run, not inside a word, the pattern matches
    the run. *)
Lemma match_word_token w rest :
  is_token w → starts_word rest = false →
  match_word false (w +:+ rest) = Some (w, rest).
Proof.
  intros Hw Hrest. unfold match_word, word_boundary.
  rewrite (starts_word_app_token _ _ Hw). simpl.
  by apply find_closing_boundary.
Qed.

(** A text that starts with a word character splits into its first
    maximal run and the rest. *)
Lemma token_split s :
  starts_word s = true →
  ∃ w rest, s = w +:+ rest ∧ is_token w ∧ starts_word rest = false.
Proof.
  induction s as [|c s IH]; [done |]. simpl. intros Hc.
  destruct (starts_word s) eqn:Hs.
  - destruct (IH eq_refl) as (w & rest & -> & [Hw _] & Hrest).
    exists (String c w), rest. split_and!; [done | | done].
    split; [| done]. simpl. by rewrite Hc, Hw.
  - exists (String c ""), s. split_and!; [done | | done].
    split; [| done]. simpl. by rewrite Hc.
Qed.

Lemma word_runs_token_app w rest :
  is_token w → starts_word rest = false →
  word_runs (w +:+ rest) = w :: word_runs rest.
Proof.
  intros Hw Hrest. destruct rest as [|c rest].
  - rewrite str_app_nil_r. by apply word_runs_token.
  - simpl in Hrest. by rewrite word_runs_token_sep, word_runs_nonword.
Qed.

Lemma scan_words_runs fuel prev_word s :
  String.length s < fuel →
  (prev_word = true → starts_word s = false) →
  scan_words fuel prev_word s = word_runs s.
Proof.
  revert prev_word s. induction fuel as [|fuel IH]; intros prev_word s Hfuel Hprev; [lia |].
  simpl. destruct (starts_word s) eqn:Hs.
  - destruct prev_word; [by specialize (Hprev eq_refl) |].
    destruct (token_split s Hs) as (w & rest & -> & Hw & Hrest).
    rewrite (match_word_token _ _ Hw Hrest), (word_runs_token_app _ _ Hw Hrest).
    f_equal. apply IH; [| done].
    rewrite str_app_length in Hfuel. destruct Hw as [_ Hne].
    destruct w; [done |]. simpl in Hfuel. lia.
  - rewrite (match_word_nonword _ _ Hs). destruct s as [|c s]; [done |].
    simpl in Hs, Hfuel. rewrite (word_runs_nonword _ _ Hs), Hs.
    apply IH; [lia | done].
Qed.

(** [re.findall(r'\b\w+\b', s)] is the list of the maximal runs of word
    characters of [s]. *)
Lemma findall_words_runs s : findall_words s = word_runs s.
Proof. unfold findall_words. apply scan_words_runs; [lia | done]. Qed.

End PyFacts.

(** ** The term extractor and the completeness classifier *)

Section Extractor.
Import Py PyFacts.

Lemma extract_key_terms_unfold question :
  extract_key_terms question =
    match key_words question with
    | [] => question
    | _ :: _ => join " " (take 5 (key_words question))
    end.
Proof. done. Qed.

Lemma filter_all {A} (P : A → Prop) `{!∀ x, Decision (P x)} (l : list A) :
  Forall P l → filter P l = l.
Proof.
  induction 1 as [|x l Hx Hl IH]; [done |].
  by rewrite filter_cons_True, IH.
Qed.

Lemma key_words_spec question :
  Forall (λ t, is_key_word t ∧ is_token t ∧ lower t = t) (key_words question).
Proof.
  apply Forall_forall. intros t [Hk Ht]%list_elem_of_filter.
  split_and!; [done | |].
  - rewrite findall_words_runs in Ht.
    by eapply Forall_forall in Ht; [| apply word_runs_tokens].
  - apply lower_fixed.
    rewrite findall_words_runs in Ht.
    eapply Forall_forall in Ht; [| apply word_runs_chars_all, lower_chars_all].
    done.
Qed.

(** The joined key words are read back as the same key words. *)
Lemma key_words_join ts :
  Forall (λ t, is_key_word t ∧ is_token t ∧ lower t = t) ts →
  key_words (join " " ts) = ts.
Proof.
  intros Hts. unfold key_words.
  apply Forall_and in Hts as [Hk Hts]. apply Forall_and in Hts as [Ht Hl].
  rewrite lower_join, findall_words_runs, word_runs_join by done.
  by apply filter_all.
Qed.

Lemma join_key_words_nonempty t ts : is_key_word t → join " " (t :: ts) ≠ "".
Proof.
  intros [_ Hlen] Heq. pose proof (join_length_ge " " t ts) as Hge.
  rewrite Heq in Hge. simpl in Hge. lia.
Qed.

End Extractor.

Section PureClaims.
Import Py PyFacts.

Lemma is_incomplete_answer_spec (answer : string) :
  is_incomplete_answer answer = true ↔
    ∃ phrase, phrase ∈ incomplete_indicators ∧ occurs_in phrase (lower answer).
Proof.
  unfold is_incomplete_answer. rewrite existsb_exists.
  split; intros (phrase & Hin & Hocc); exists phrase.
  - by rewrite list_elem_of_In, <- contains_spec.
  - by rewrite <- list_elem_of_In, contains_spec.
Qed.

(** A flagged answer is not empty. *)
Lemma is_incomplete_answer_nonempty (answer : string) :
  is_incomplete_answer answer = true → answer ≠ "".
Proof. by intros Hinc ->. Qed.

(** C4. [is_incomplete_answer] returns true exactly when one of the fixed
    negative-signal phrases occurs in the lower-cased answer; so it is
    true for an answer that holds a phrase in any letter case at any
    place, and false for an answer that holds none of them. *)
Theorem is_incomplete_answer_iff_phrase (answer : string) :
  (is_incomplete_answer answer = true ↔
     ∃ phrase, phrase ∈ incomplete_indicators ∧ occurs_in phrase (lower answer))
  ∧ (∀ phrase v, phrase ∈ incomplete_indicators → lower v = phrase →
       occurs_in v answer → is_incomplete_answer answer = true)
  ∧ ((∀ phrase v, phrase ∈ incomplete_indicators → lower v = phrase →
        ¬ occurs_in v answer) → is_incomplete_answer answer = false).
Proof.
  pose proof (is_incomplete_answer_spec answer) as Hiff.
  split_and!; [done | |].
  - intros phrase v Hin Hv (pre & post & ->). apply Hiff.
    exists phrase. split; [done |].
    exists (lower pre), (lower post). by rewrite !lower_app, Hv.
  - intros Hnone. apply not_true_is_false. intros Htrue.
    apply Hiff in Htrue as (phrase & Hin & pre & post & Hsplit).
    apply lower_app_inv in Hsplit as (s1 & s2 & -> & _ & Hrest).
    apply lower_app_inv in Hrest as (v & s3 & -> & Hv & _).
    apply (Hnone phrase v); [done.. |]. by exists s1, s3.
Qed.

Lemma is_incomplete_answer_iff_phrase_witness :
  is_incomplete_answer "The report says this was NOT Mentioned anywhere." = true.
Proof.
  apply (proj1 (proj2 (is_incomplete_answer_iff_phrase _))
           "not mentioned" "NOT Mentioned").
  - apply list_elem_of_In. vm_compute. tauto.
  - reflexivity.
  - exists "The report says this was ", " anywhere.". reflexivity.
Defined.

(** C5. On the question about the capital of France the
    extractor yields "the capital france and important": the stop-words
    "what", "is", "why" and the tokens of at most two characters ("of",
    "it") are removed, "the" and "and" are not stop-words and stay, five
    tokens are kept, in their original order. *)
Theorem extract_key_terms_france :
  findall_words (lower france_question) =
    ["what"; "is"; "the"; "capital"; "of"; "france"; "and"; "why"; "is"; "it";
     "important"]
  ∧ key_words france_question = ["the"; "capital"; "france"; "and"; "important"]
  ∧ extract_key_terms france_question = "the capital france and important".
Proof. split_and!; by vm_compute. Qed.

Lemma extract_key_terms_france_counterexample :
  extract_key_terms "What is the capital of France and why is it important?"
  ≠ "capital france important".
Proof. by vm_compute. Qed.

(** C6. When no token survives the filtering the extractor
    returns the question as it is; its result is empty only for the empty
    question, never for a non-empty one. *)
Theorem extract_key_terms_no_survivor (question : string) :
  (key_words question = [] → extract_key_terms question = question)
  ∧ (question ≠ "" → extract_key_terms question ≠ "")
  ∧ (extract_key_terms question = "" ↔ question = "").
Proof.
  assert (Hne : question ≠ "" → extract_key_terms question ≠ "").
  { intros Hq. rewrite extract_key_terms_unfold.
    pose proof (key_words_spec question) as Hspec.
    destruct (key_words question) as [|t ts]; [done |].
    apply Forall_cons in Hspec as [(Hk & _) _].
    by apply join_key_words_nonempty. }
  split_and!; [| done |].
  - intros Hnil. by rewrite extract_key_terms_unfold, Hnil.
  - split; [| by intros ->].
    intros Hres. destruct (decide (question = "")); [done |].
    by destruct Hne.
Qed.

Lemma extract_key_terms_no_survivor_witness :
  extract_key_terms "Is it?" = "Is it?" ∧ extract_key_terms "Is it?" ≠ "".
Proof.
  split.
  - apply (proj1 (extract_key_terms_no_survivor "Is it?")). reflexivity.
  - apply (proj1 (proj2 (extract_key_terms_no_survivor "Is it?"))). discriminate.
Defined.

Lemma extract_key_terms_empty_counterexample :
  extract_key_terms "" = "" ∧ ¬ (∀ question, extract_key_terms question ≠ "").
Proof. split; [done |]. intros H. by apply (H ""). Qed.

(** C10. [extract_key_terms] is idempotent. *)
Theorem extract_key_terms_idempotent (question : string) :
  extract_key_terms (extract_key_terms question) = extract_key_terms question.
Proof.
  rewrite (extract_key_terms_unfold question).
  pose proof (key_words_spec question) as Hspec.
  destruct (key_words question) as [|t ts] eqn:Hkw.
  - by rewrite extract_key_terms_unfold, Hkw.
  - rewrite extract_key_terms_unfold.
    rewrite key_words_join by by apply Forall_take.
    rewrite take_idemp. done.
Qed.

End PureClaims.

(** ** Running the node functions *)

Section Runs.
Context (self : RAGNodes).

(** Resolve the attribute reads of a state known to be in the store. *)
Ltac read_state H :=
  repeat (cbv beta iota; cbn [store trace emit]; rewrite H); cbv beta iota.

Lemma answer_with_documents_run state st w :
  store w !! state = Some st →
  answer_with_documents self state w =
    match retrieved_docs st with
    | [] => (Returned no_documents_answer, w)
    | _ :: _ =>
        let prompt := document_prompt_of st in
        (Returned match llm self (trace w) prompt with
                  | Returned response => response_text response
                  | Raised e => document_error e
                  end,
         emit (EvLlmInvoke prompt) w)
    end.
Proof.
  intros Hst.
  unfold answer_with_documents, document_prompt_of, mbind, M_bind, getattr.
  read_state Hst. destruct (retrieved_docs st) as [|d ds] eqn:Hdocs; [done |].
  read_state Hst. rewrite Hdocs.
  unfold try_except, llm_invoke, call, mret, M_ret.
  by destruct (llm self (trace w) _).
Qed.

Lemma answer_with_wikipedia_run state st doc_answer w :
  store w !! state = Some st →
  let w1 := emit (EvPrint "DEBUG: Using Wikipedia fallback for additional information") w in
  let wiki_query := extract_key_terms (question st) in
  let w2 := emit (EvWikiRun wiki_query) w1 in
  answer_with_wikipedia self state doc_answer w =
    match wiki_tool self (trace w1) wiki_query with
    | Raised e => (Returned (doc_answer +:+ wikipedia_failure_note e), w2)
    | Returned wiki_content =>
        let prompt := combined_prompt (question st) doc_answer wiki_content in
        (Returned match llm self (trace w2) prompt with
                  | Returned response => response_text response
                  | Raised e => doc_answer +:+ wikipedia_failure_note e
                  end,
         emit (EvLlmInvoke prompt) w2)
    end.
Proof.
  intros Hst. cbv zeta.
  unfold answer_with_wikipedia, mbind, M_bind, getattr, print.
  read_state Hst.
  unfold try_except, wiki_tool_run, llm_invoke, call, mret, M_ret.
  destruct (wiki_tool self _ _) as [wiki_content | e]; [| done].
  read_state Hst.
  by destruct (llm self _ _).
Qed.

(** Retrieval: the new turn has the question of the input and the
    documents the retriever returned; a failure of the retriever is not
    caught. *)
Lemma retrieve_docs_run state st w :
  store w !! state = Some st →
  retrieve_docs self state w =
    match retriever self (trace w) (question st) with
    | Returned docs =>
        let line := "DEBUG: Retrieved " +:+ Py.str_of_nat (length docs)
                    +:+ " documents from uploaded content" in
        (Returned (length (store w)),
         mkWorld (trace w ++ [EvRetrieve (question st); EvPrint line])
                 (store w ++ [mkRAGState (question st) docs None]))
    | Raised e => (Raised e, emit (EvRetrieve (question st)) w)
    end.
Proof.
  intros Hst.
  unfold retrieve_docs, mbind, M_bind, getattr, retriever_invoke, call, print.
  read_state Hst.
  destruct (retriever self _ _) as [docs | e]; [| done].
  read_state Hst. unfold new_RAGState. cbn [store trace emit].
  by rewrite <- (assoc_L (++)).
Qed.

(** The document answerer always returns; it leaves the store alone and
    issues no lookup. *)
Lemma answer_with_documents_effect state st w :
  store w !! state = Some st →
  ∃ doc_answer evs,
    answer_with_documents self state w
      = (Returned doc_answer, mkWorld (trace w ++ evs) (store w))
    ∧ wiki_runs evs = 0.
Proof.
  intros Hst. rewrite (answer_with_documents_run _ _ _ Hst).
  destruct (retrieved_docs st).
  - exists no_documents_answer, []. rewrite app_nil_r. by destruct w.
  - by eexists _, [_].
Qed.

(** The fallback synthesizer always returns; it leaves the store alone
    and issues exactly one lookup. *)
Lemma answer_with_wikipedia_effect state st doc_answer w :
  store w !! state = Some st →
  ∃ final evs,
    answer_with_wikipedia self state doc_answer w
      = (Returned final, mkWorld (trace w ++ evs) (store w))
    ∧ wiki_runs evs = 1.
Proof.
  intros Hst. rewrite (answer_with_wikipedia_run _ _ _ _ Hst). cbv zeta.
  destruct (wiki_tool self _ _) as [wiki_content | e].
  - eexists _, [_; _; _]. unfold emit. cbn [trace store].
    rewrite <- !(assoc_L (++)). done.
  - eexists _, [_; _]. unfold emit. cbn [trace store].
    rewrite <- !(assoc_L (++)). done.
Qed.

Lemma prints_only_emit line w : prints_only w (emit (EvPrint line) w).
Proof. split; [done | by exists [line]]. Qed.

Lemma prints_only_trans w1 w2 w3 :
  prints_only w1 w2 → prints_only w2 w3 → prints_only w1 w3.
Proof.
  intros [Hs1 [l1 Ht1]] [Hs2 [l2 Ht2]]. split; [congruence |].
  exists (l1 ++ l2). by rewrite Ht2, Ht1, fmap_app, (assoc_L (++)).
Qed.

(** The orchestrator, given what its two stages do. *)
Lemma generate_answer_run state st w :
  store w !! state = Some st →
  ∃ w1 doc_answer w2 w3 final w4,
    prints_only w w1
    ∧ answer_with_documents self state w1 = (Returned doc_answer, w2)
    ∧ prints_only w2 w3
    ∧ (if is_incomplete_answer doc_answer
       then answer_with_wikipedia self state doc_answer w3 = (Returned final, w4)
       else final = doc_answer ∧ w4 = w3)
    ∧ generate_answer self state w
      = (Returned (length (store w)),
         mkWorld (trace w4)
           (store w ++ [mkRAGState (question st) (retrieved_docs st) (Some final)])).
Proof.
  intros Hst.
  unfold generate_answer, mbind, M_bind, getattr, print.
  read_state Hst.
  set (w1 := emit (EvPrint _) w).
  destruct (answer_with_documents_effect state st w1 Hst) as (d & evs & Hd & _).
  rewrite Hd. read_state Hst.
  exists w1, d. eexists.
  assert (Hw1 : prints_only w w1) by apply prints_only_emit.
  destruct (is_incomplete_answer d) eqn:Hinc.
  - set (w3 := emit (EvPrint "DEBUG: Document answer incomplete, trying Wikipedia fallback") _).
    assert (Hst3 : store w3 !! state = Some st) by exact Hst.
    destruct (answer_with_wikipedia_effect state st d w3 Hst3) as (final & evs' & Hf & _).
    rewrite Hf. unfold new_RAGState. read_state Hst3.
    exists w3, final. eexists. split_and!; try done.
    eapply prints_only_trans; apply prints_only_emit.
  - set (w3 := emit (EvPrint "DEBUG: Document answer sufficient, using document-only response") _).
    assert (Hst3 : store w3 !! state = Some st) by exact Hst.
    unfold new_RAGState, mret, M_ret. read_state Hst3.
    exists w3, d, w3. split_and!; try done.
    eapply prints_only_trans; apply prints_only_emit.
Qed.

End Runs.

(** ** Counting the calls of a run *)

Section Traces.

Lemma wiki_runs_app evs1 evs2 : wiki_runs (evs1 ++ evs2) = wiki_runs evs1 + wiki_runs evs2.
Proof. unfold wiki_runs. by rewrite List.filter_app, length_app. Qed.

Lemma wiki_runs_prints lines : wiki_runs (EvPrint <$> lines) = 0.
Proof. by induction lines. Qed.

Lemma wiki_runs_pos evs : 0 < wiki_runs evs ↔ ∃ q, EvWikiRun q ∈ evs.
Proof.
  unfold wiki_runs. induction evs as [|ev evs IH]; simpl.
  - split; [lia | intros [q Hq]; by apply elem_of_nil in Hq].
  - destruct ev; simpl; try (rewrite IH; split; intros [q Hq]; exists q;
      [by right | by apply elem_of_cons in Hq as [? | ?]]).
    split; [intros _; eexists; by left | lia].
Qed.

Lemma events_since_app w w' evs : trace w' = trace w ++ evs → events_since w w' = evs.
Proof. unfold events_since. intros ->. by rewrite drop_app_length. Qed.

Lemma prints_only_lookup w w' state st :
  prints_only w w' → store w !! state = Some st → store w' !! state = Some st.
Proof. by intros [-> _]. Qed.

End Traces.

(** ** The node functions: claims *)

Section NodeClaims.
Import Py PyFacts.
Context (self : RAGNodes).

(** C1. In every turn the orchestrator issues the knowledge lookup if and
    only if the classifier returns true on the document answer, and then
    exactly once, inside the fallback synthesizer and after the document
    answer was produced; when the classifier returns false the final
    answer is the document answer and no lookup is issued. *)
Theorem generate_answer_fallback_iff (state : loc) (st : RAGState) (w : World) :
  store w !! state = Some st →
  ∃ w1 doc_answer w2 new w' final,
    prints_only w w1
    ∧ answer_with_documents self state w1 = (Returned doc_answer, w2)
    ∧ generate_answer self state w = (Returned new, w')
    ∧ store w' !! new
      = Some (mkRAGState (question st) (retrieved_docs st) (Some final))
    ∧ wiki_runs (events_since w w2) = 0
    ∧ wiki_runs (events_since w w')
      = (if is_incomplete_answer doc_answer then 1 else 0)
    ∧ (is_incomplete_answer doc_answer = true
       ↔ ∃ q, EvWikiRun q ∈ events_since w w')
    ∧ (is_incomplete_answer doc_answer = true →
         ∃ w3 w4, prints_only w2 w3
           ∧ answer_with_wikipedia self state doc_answer w3 = (Returned final, w4)
           ∧ trace w' = trace w4)
    ∧ (is_incomplete_answer doc_answer = false → final = doc_answer).
Proof.
  intros Hst.
  destruct (generate_answer_run self state st w Hst)
    as (w1 & doc_answer & w2 & w3 & final & w4 & Hw1 & Hdoc & Hw3 & Hfb & Hgen).
  pose proof (prints_only_lookup _ _ _ _ Hw1 Hst) as Hst1.
  destruct (answer_with_documents_effect self state st w1 Hst1)
    as (d & evs & Hd & Hevs).
  assert (Hdoc' := Hdoc). rewrite Hd in Hdoc'. injection Hdoc' as -> <-.
  assert (Hst3 : store w3 !! state = Some st).
  { by apply (prints_only_lookup _ _ _ _ Hw3). }
  destruct Hw1 as [Hs1 [l1 Ht1]]. assert (Hw3' := Hw3).
  destruct Hw3' as [Hs3 [l3 Ht3]]. cbn [trace store] in Hs3, Ht3.
  set (before := (EvPrint <$> l1) ++ evs).
  assert (Hbefore : wiki_runs before = 0).
  { unfold before. by rewrite wiki_runs_app, wiki_runs_prints. }
  assert (Hafter : ∃ rest,
    trace w4 = trace w ++ before ++ (EvPrint <$> l3) ++ rest
    ∧ wiki_runs rest = if is_incomplete_answer doc_answer then 1 else 0).
  { unfold before. destruct (is_incomplete_answer doc_answer).
    - destruct (answer_with_wikipedia_effect self state st doc_answer w3 Hst3)
        as (f & evs' & Hf & Hevs').
      rewrite Hf in Hfb. injection Hfb as -> <-. exists evs'. split; [| done].
      cbn [trace]. by rewrite Ht3, Ht1, <- !(assoc_L (++)).
    - destruct Hfb as [-> ->]. exists []. split; [| done].
      by rewrite Ht3, Ht1, app_nil_r, <- !(assoc_L (++)). }
  destruct Hafter as (rest & Htr & Hrest).
  set (w' := mkWorld (trace w4) _) in Hgen.
  assert (Hruns : wiki_runs (events_since w w')
                  = if is_incomplete_answer doc_answer then 1 else 0).
  { erewrite events_since_app by exact Htr.
    by rewrite !wiki_runs_app, Hbefore, wiki_runs_prints, Hrest. }
  exists w1, doc_answer, (mkWorld (trace w1 ++ evs) (store w1)), (length (store w)), w', final.
  split_and!; [by split; [| exists l1] | done | done | ..].
  - unfold w'. cbn [store]. by rewrite lookup_app_r, Nat.sub_diag.
  - erewrite events_since_app; [exact Hbefore |].
    unfold before. cbn [trace]. by rewrite Ht1, <- (assoc_L (++)).
  - exact Hruns.
  - rewrite <- wiki_runs_pos, Hruns. destruct (is_incomplete_answer doc_answer).
    + split; [lia | done].
    + split; [done | lia].
  - intros Hinc. rewrite Hinc in Hfb. exists w3, w4. by split_and!.
  - intros Hinc. rewrite Hinc in Hfb. by destruct Hfb.
Qed.

(** C2. With an empty [retrieved_docs] the document answerer returns
    the fixed sentence and the world is left as it was: the generation
    service is not invoked. *)
Theorem answer_with_documents_no_docs (state : loc) (st : RAGState) (w : World) :
  store w !! state = Some st →
  retrieved_docs st = [] →
  answer_with_documents self state w = (Returned no_documents_answer, w)
  ∧ no_documents_answer = "No relevant documents found in uploaded content."
  ∧ llm_invocations (events_since w (answer_with_documents self state w).2) = 0.
Proof.
  intros Hst Hdocs. rewrite (answer_with_documents_run _ _ _ _ Hst), Hdocs.
  split_and!; [done.. |]. cbn [snd].
  erewrite events_since_app; [| by rewrite (right_id_L [] (++))]. done.
Qed.

(** C7. With a non-empty [retrieved_docs], when the generation service
    raises, the document answerer returns "Error processing documents: "
    followed by the text of the exception; whatever the service does, the
    document answerer returns a string and raises nothing. *)
Theorem answer_with_documents_llm_failure (state : loc) (st : RAGState) (w : World) :
  store w !! state = Some st →
  retrieved_docs st ≠ [] →
  (∀ e, llm self (trace w) (document_prompt_of st) = Raised e →
     answer_with_documents self state w
     = (Returned ("Error processing documents: " +:+ exc_str e),
        emit (EvLlmInvoke (document_prompt_of st)) w))
  ∧ ∃ doc_answer w', answer_with_documents self state w = (Returned doc_answer, w').
Proof.
  intros Hst Hdocs. rewrite (answer_with_documents_run _ _ _ _ Hst).
  destruct (retrieved_docs st); [done |]. cbv zeta. split.
  - by intros e ->.
  - by eexists _, _.
Qed.

(** C8. When the knowledge lookup raises, or it returns and the
    generation call that follows raises, the fallback synthesizer returns
    the document answer followed by the note that gives the reason; it
    does not raise.  The result then starts with the document answer and
    is not empty, and for a document answer that the classifier flags,
    the only kind [generate_answer] hands over, it is more than the note:
    the result is the bare note only for the empty document answer. *)
Theorem answer_with_wikipedia_failure (state : loc) (st : RAGState)
    (doc_answer : string) (w : World) (e : Exception) :
  store w !! state = Some st →
  let w1 := emit (EvPrint "DEBUG: Using Wikipedia fallback for additional information") w in
  let wiki_query := extract_key_terms (question st) in
  let w2 := emit (EvWikiRun wiki_query) w1 in
  wiki_tool self (trace w1) wiki_query = Raised e
  ∨ (∃ wiki_content,
       wiki_tool self (trace w1) wiki_query = Returned wiki_content
       ∧ llm self (trace w2) (combined_prompt (question st) doc_answer wiki_content)
         = Raised e) →
  ∃ result w',
    answer_with_wikipedia self state doc_answer w = (Returned result, w')
    ∧ result = doc_answer +:+ Py.nl +:+ Py.nl
               +:+ "Note: Could not retrieve additional information from Wikipedia due to error: "
               +:+ exc_str e
    ∧ startswith doc_answer result = true
    ∧ result ≠ ""
    ∧ (is_incomplete_answer doc_answer = true → result ≠ wikipedia_failure_note e)
    ∧ (result = wikipedia_failure_note e ↔ doc_answer = "").
Proof.
  intros Hst w1 wiki_query w2 Hfail.
  rewrite (answer_with_wikipedia_run _ _ _ _ _ Hst). cbv zeta.
  fold w1 wiki_query. fold w2.
  assert (Hshape : ∀ result, result = doc_answer +:+ wikipedia_failure_note e →
    result = doc_answer +:+ Py.nl +:+ Py.nl
               +:+ "Note: Could not retrieve additional information from Wikipedia due to error: "
               +:+ exc_str e
    ∧ startswith doc_answer result = true
    ∧ result ≠ ""
    ∧ (is_incomplete_answer doc_answer = true → result ≠ wikipedia_failure_note e)
    ∧ (result = wikipedia_failure_note e ↔ doc_answer = "")).
  { intros result ->.
    assert (Hbare : doc_answer +:+ wikipedia_failure_note e = wikipedia_failure_note e
                    → doc_answer = "").
    { intros Heq. apply (f_equal String.length) in Heq.
      rewrite str_app_length in Heq.
      destruct doc_answer; [done | simpl in Heq; lia]. }
    split_and!.
    - done.
    - apply startswith_spec. by eexists.
    - intros Hempty. apply (f_equal String.length) in Hempty.
      rewrite str_app_length in Hempty. unfold wikipedia_failure_note in Hempty.
      rewrite str_app_length in Hempty. simpl in Hempty. lia.
    - intros Hflag Heq. by apply (is_incomplete_answer_nonempty _ Hflag), Hbare.
    - split; [exact Hbare | by intros ->]. }
  destruct Hfail as [-> | (wiki_content & -> & ->)]; eexists _, _; eauto.
Qed.

(** Whatever the collaborators do, the fallback synthesizer returns. *)
Lemma answer_with_wikipedia_returns (state : loc) (st : RAGState)
    (doc_answer : string) (w : World) :
  store w !! state = Some st →
  ∃ result w', answer_with_wikipedia self state doc_answer w = (Returned result, w').
Proof.
  intros Hst.
  destruct (answer_with_wikipedia_effect self state st doc_answer w Hst)
    as (result & evs & Hrun & _).
  eauto.
Qed.

(** C9. The orchestrator returns a new turn: the reference is fresh, the
    turn it points to has the question and the retrieved documents of
    the input turn and an answer, and every turn that was in the store,
    the input among them, is as before. *)
Theorem generate_answer_new_turn (state : loc) (st : RAGState) (w : World) :
  store w !! state = Some st →
  ∃ new w' final,
    generate_answer self state w = (Returned new, w')
    ∧ store w !! new = None
    ∧ new ≠ state
    ∧ store w' !! new = Some (mkRAGState (question st) (retrieved_docs st) (Some final))
    ∧ store w' !! state = Some st
    ∧ (∀ l old, store w !! l = Some old → store w' !! l = Some old)
    ∧ length (store w') = S (length (store w)).
Proof.
  intros Hst.
  destruct (generate_answer_run self state st w Hst)
    as (w1 & doc_answer & w2 & w3 & final & w4 & _ & _ & _ & _ & Hgen).
  eexists _, _, final. split; [exact Hgen |]. cbn [store].
  assert (Hfresh : store w !! length (store w) = None) by by apply lookup_ge_None.
  split_and!.
  - done.
  - intros Heq. rewrite Heq in Hfresh. congruence.
  - by rewrite lookup_app_r, Nat.sub_diag.
  - by apply lookup_app_l_Some.
  - intros l old Hl. by apply lookup_app_l_Some.
  - rewrite length_app. simpl. lia.
Qed.

(** C3. The sentence returned for an empty [retrieved_docs] holds none
    of the negative-signal phrases, so the classifier returns false on it:
    a turn without documents ends with that sentence as its answer and
    without any lookup. *)
Theorem no_documents_answer_not_flagged :
  is_incomplete_answer no_documents_answer = false
  ∧ (∀ phrase, phrase ∈ incomplete_indicators →
       ¬ occurs_in phrase (lower no_documents_answer))
  ∧ ∀ state st w,
      store w !! state = Some st → retrieved_docs st = [] →
      ∃ new w',
        generate_answer self state w = (Returned new, w')
        ∧ store w' !! new
          = Some (mkRAGState (question st) [] (Some no_documents_answer))
        ∧ wiki_runs (events_since w w') = 0.
Proof.
  assert (Hflag : is_incomplete_answer no_documents_answer = false) by by vm_compute.
  split_and!; [done | |].
  - intros phrase Hin Hocc. apply not_true_iff_false in Hflag. apply Hflag.
    apply is_incomplete_answer_spec. eauto.
  - intros state st w Hst Hdocs.
    destruct (generate_answer_run self state st w Hst)
      as (w1 & doc_answer & w2 & w3 & final & w4 & Hw1 & Hdoc & Hw3 & Hfb & Hgen).
    pose proof (prints_only_lookup _ _ _ _ Hw1 Hst) as Hst1.
    rewrite (answer_with_documents_run _ _ _ _ Hst1), Hdocs in Hdoc.
    injection Hdoc as <- <-. rewrite Hflag in Hfb. destruct Hfb as [-> ->].
    eexists _, _. split; [exact Hgen |]. rewrite Hdocs. cbn [store]. split.
    + by rewrite lookup_app_r, Nat.sub_diag.
    + pose proof (prints_only_trans _ _ _ Hw1 Hw3) as [_ [lines Hlines]].
      erewrite events_since_app by exact Hlines. apply wiki_runs_prints.
Qed.

End NodeClaims.

(** ** The claims at concrete turns *)

Section Witnesses.
Import Py PyFacts.

Lemma generate_answer_fallback_iff_witness :
  ∃ new w',
    generate_answer (answering_nodes "Paris is the capital of France." "Paris")
      0 (one_turn france_question [paris_doc]) = (Returned new, w')
    ∧ store w' !! new
      = Some (mkRAGState france_question [paris_doc]
                (Some "Paris is the capital of France."))
    ∧ wiki_runs (events_since (one_turn france_question [paris_doc]) w') = 0.
Proof.
  destruct (generate_answer_fallback_iff
              (answering_nodes "Paris is the capital of France." "Paris")
              0 (mkRAGState france_question [paris_doc] None)
              (one_turn france_question [paris_doc]) eq_refl)
    as (w1 & doc_answer & w2 & new & w' & final & Hw1 & Hdoc & Hgen & Hnew
        & _ & Hruns & _ & _ & Hsame).
  assert (Hd : doc_answer = "Paris is the capital of France.").
  { rewrite (answer_with_documents_run _ 0 (mkRAGState france_question [paris_doc] None))
      in Hdoc by (by destruct Hw1 as [-> _]).
    by injection Hdoc as <- _. }
  subst doc_answer. rewrite (Hsame eq_refl) in Hnew.
  exists new, w'. by split_and!.
Defined.

Lemma answer_with_documents_no_docs_witness :
  answer_with_documents (failing_llm_nodes "quota exceeded" "Paris")
    0 (one_turn france_question [])
  = (Returned "No relevant documents found in uploaded content.",
     one_turn france_question []).
Proof.
  apply (answer_with_documents_no_docs (failing_llm_nodes "quota exceeded" "Paris")
           0 (mkRAGState france_question [] None) (one_turn france_question []));
    reflexivity.
Defined.

Lemma answer_with_documents_llm_failure_witness :
  ∃ w', answer_with_documents (failing_llm_nodes "quota exceeded" "Paris")
          0 (one_turn france_question [paris_doc])
        = (Returned "Error processing documents: quota exceeded", w').
Proof.
  eexists.
  apply (proj1 (answer_with_documents_llm_failure
                  (failing_llm_nodes "quota exceeded" "Paris")
                  0 (mkRAGState france_question [paris_doc] None)
                  (one_turn france_question [paris_doc]) eq_refl ltac:(discriminate))
           (mkException "quota exceeded")).
  reflexivity.
Defined.

Lemma answer_with_wikipedia_failure_witness :
  ∃ result w',
    answer_with_wikipedia (failing_wiki_nodes "unused" "offline")
      0 "That is not mentioned." (one_turn france_question [paris_doc])
    = (Returned result, w')
    ∧ startswith "That is not mentioned." result = true
    ∧ result ≠ wikipedia_failure_note (mkException "offline").
Proof.
  destruct (answer_with_wikipedia_failure (failing_wiki_nodes "unused" "offline")
              0 (mkRAGState france_question [paris_doc] None)
              "That is not mentioned." (one_turn france_question [paris_doc])
              (mkException "offline") eq_refl (or_introl eq_refl))
    as (result & w' & Hrun & _ & Hstart & _ & Hmore & _).
  exists result, w'. split_and!; [exact Hrun | exact Hstart | by apply Hmore].
Defined.

Lemma generate_answer_new_turn_witness :
  ∃ new w',
    generate_answer (failing_wiki_nodes "That is not mentioned." "offline")
      0 (one_turn france_question [paris_doc]) = (Returned new, w')
    ∧ new ≠ 0
    ∧ store w' !! 0 = Some (mkRAGState france_question [paris_doc] None).
Proof.
  destruct (generate_answer_new_turn
              (failing_wiki_nodes "That is not mentioned." "offline")
              0 (mkRAGState france_question [paris_doc] None)
              (one_turn france_question [paris_doc]) eq_refl)
    as (new & w' & final & Hgen & _ & Hne & _ & Hold & _).
  by exists new, w'.
Defined.

Lemma no_documents_answer_not_flagged_witness :
  ∃ new w',
    generate_answer (answering_nodes "unused" "Paris") 0 (one_turn france_question [])
    = (Returned new, w')
    ∧ store w' !! new
      = Some (mkRAGState france_question []
                (Some "No relevant documents found in uploaded content."))
    ∧ wiki_runs (events_since (one_turn france_question []) w') = 0.
Proof.
  apply (proj2 (proj2 (no_documents_answer_not_flagged (answering_nodes "unused" "Paris")))
           0 (mkRAGState france_question [] None) (one_turn france_question []));
    reflexivity.
Defined.

End Witnesses.

(** * Further properties *)

(** ** Counting calls *)

Section Counting.

Lemma llm_invocations_app evs1 evs2 :
  llm_invocations (evs1 ++ evs2) = llm_invocations evs1 + llm_invocations evs2.
Proof. unfold llm_invocations. by rewrite List.filter_app, length_app. Qed.

Lemma retrievals_app evs1 evs2 :
  retrievals (evs1 ++ evs2) = retrievals evs1 + retrievals evs2.
Proof. unfold retrievals. by rewrite List.filter_app, length_app. Qed.

Lemma llm_invocations_prints lines : llm_invocations (EvPrint <$> lines) = 0.
Proof. by induction lines. Qed.

Lemma retrievals_prints lines : retrievals (EvPrint <$> lines) = 0.
Proof. by induction lines. Qed.

(** The store after an allocation. *)
Lemma lookup_alloc_new (σ : list RAGState) (st : RAGState) :
  (σ ++ [st]) !! length σ = Some st.
Proof. by rewrite lookup_app_r, Nat.sub_diag. Qed.

Lemma lookup_alloc_old (σ : list RAGState) (st old : RAGState) (l : nat) :
  σ !! l = Some old → (σ ++ [st]) !! l = Some old.
Proof. intros Hl. by apply lookup_app_l_Some. Qed.

Lemma lookup_fresh (σ : list RAGState) : σ !! length σ = None.
Proof. by apply lookup_ge_None. Qed.

End Counting.

(** ** Retrieval *)

Section Retrieval.
Context (self : RAGNodes).

(** X1. When the retriever returns, [retrieve_docs] returns a reference to
    a new turn with the question of the input, the documents as the
    retriever gave them and no answer; the turns in the store stay as they
    were; the retriever was asked once, with the question, and neither the
    generation service nor the lookup was called. *)
Theorem retrieve_docs_new_turn (state : loc) (st : RAGState) (w : World)
    (docs : list Document) :
  store w !! state = Some st →
  retriever self (trace w) (question st) = Returned docs →
  ∃ new w',
    retrieve_docs self state w = (Returned new, w')
    ∧ store w !! new = None
    ∧ store w' !! new = Some (mkRAGState (question st) docs None)
    ∧ (∀ l old, store w !! l = Some old → store w' !! l = Some old)
    ∧ EvRetrieve (question st) ∈ events_since w w'
    ∧ retrievals (events_since w w') = 1
    ∧ llm_invocations (events_since w w') = 0
    ∧ wiki_runs (events_since w w') = 0.
Proof.
  intros Hst Hret. rewrite (retrieve_docs_run _ _ _ _ Hst), Hret. cbv zeta.
  eexists _, _. split; [done |]. cbn [store].
  erewrite events_since_app by done.
  split_and!; try done.
  - apply lookup_fresh.
  - apply lookup_alloc_new.
  - intros l old. apply lookup_alloc_old.
  - by left.
Qed.

(** X2. A failure of the retriever is not caught: [retrieve_docs] raises
    the same exception and creates no turn. *)
Theorem retrieve_docs_failure (state : loc) (st : RAGState) (w : World)
    (e : Exception) :
  store w !! state = Some st →
  retriever self (trace w) (question st) = Raised e →
  ∃ w',
    retrieve_docs self state w = (Raised e, w')
    ∧ store w' = store w
    ∧ events_since w w' = [EvRetrieve (question st)].
Proof.
  intros Hst Hret. rewrite (retrieve_docs_run _ _ _ _ Hst), Hret.
  eexists. split; [done |]. split; [done |].
  by erewrite events_since_app.
Qed.

End Retrieval.

(** ** The events of a turn *)

Section TurnEvents.
Context (self : RAGNodes).

(** What the document answerer returns and which events it adds, by the
    documents of the turn and the history [h] at its call. *)
Lemma answer_with_documents_events state st w :
  store w !! state = Some st →
  ∃ doc_answer docevs,
    answer_with_documents self state w
      = (Returned doc_answer, mkWorld (trace w ++ docevs) (store w))
    ∧ (doc_answer, docevs)
      = match retrieved_docs st with
        | [] => (no_documents_answer, [])
        | _ :: _ =>
            (match llm self (trace w) (document_prompt_of st) with
             | Returned response => response_text response
             | Raised e => document_error e
             end,
             [EvLlmInvoke (document_prompt_of st)])
        end.
Proof.
  intros Hst. rewrite (answer_with_documents_run _ _ _ _ Hst).
  destruct (retrieved_docs st).
  - eexists _, []. rewrite (right_id_L [] (++)). by destruct w.
  - by eexists _, [_].
Qed.

(** What the fallback synthesizer returns and which events it adds. *)
Lemma answer_with_wikipedia_events state st doc_answer w :
  store w !! state = Some st →
  let line := EvPrint "DEBUG: Using Wikipedia fallback for additional information" in
  let q := extract_key_terms (question st) in
  ∃ final fbevs,
    answer_with_wikipedia self state doc_answer w
      = (Returned final, mkWorld (trace w ++ fbevs) (store w))
    ∧ match wiki_tool self (trace w ++ [line]) q with
      | Raised e =>
          final = doc_answer +:+ wikipedia_failure_note e
          ∧ fbevs = [line; EvWikiRun q]
      | Returned wiki_content =>
          let prompt := combined_prompt (question st) doc_answer wiki_content in
          final = match llm self (trace w ++ [line; EvWikiRun q]) prompt with
                  | Returned response => response_text response
                  | Raised e => doc_answer +:+ wikipedia_failure_note e
                  end
          ∧ fbevs = [line; EvWikiRun q; EvLlmInvoke prompt]
      end.
Proof.
  intros Hst line q. rewrite (answer_with_wikipedia_run _ _ _ _ _ Hst). cbv zeta.
  unfold emit. cbn [trace store]. fold line q.
  rewrite <- !(assoc_L (++)). cbn [app].
  destruct (wiki_tool self (trace w ++ [line]) q) as [wiki_content | e].
  - eexists _, [line; EvWikiRun q; EvLlmInvoke _]. split_and!; [| done..].
    do 2 f_equal. by rewrite <- (assoc_L (++)).
  - by eexists _, [line; EvWikiRun q].
Qed.

(** The whole turn: the prints, the events of the document answerer, the
    prints, and the events of the fallback when the answer is flagged. *)
Lemma generate_answer_events state st w :
  store w !! state = Some st →
  let line := EvPrint "DEBUG: Using Wikipedia fallback for additional information" in
  let q := extract_key_terms (question st) in
  ∃ doc_answer final lines1 docevs lines3 fbevs,
    generate_answer self state w
      = (Returned (length (store w)),
         mkWorld (trace w ++ (EvPrint <$> lines1) ++ docevs ++ (EvPrint <$> lines3) ++ fbevs)
           (store w ++ [mkRAGState (question st) (retrieved_docs st) (Some final)]))
    ∧ (doc_answer, docevs)
      = match retrieved_docs st with
        | [] => (no_documents_answer, [])
        | _ :: _ =>
            (match llm self (trace w ++ (EvPrint <$> lines1)) (document_prompt_of st) with
             | Returned response => response_text response
             | Raised e => document_error e
             end,
             [EvLlmInvoke (document_prompt_of st)])
        end
    ∧ if is_incomplete_answer doc_answer
      then
        let h := trace w ++ (EvPrint <$> lines1) ++ docevs ++ (EvPrint <$> lines3) in
        match wiki_tool self (h ++ [line]) q with
        | Raised e =>
            final = doc_answer +:+ wikipedia_failure_note e
            ∧ fbevs = [line; EvWikiRun q]
        | Returned wiki_content =>
            let prompt := combined_prompt (question st) doc_answer wiki_content in
            final = match llm self (h ++ [line; EvWikiRun q]) prompt with
                    | Returned response => response_text response
                    | Raised e => doc_answer +:+ wikipedia_failure_note e
                    end
            ∧ fbevs = [line; EvWikiRun q; EvLlmInvoke prompt]
        end
      else final = doc_answer ∧ fbevs = [].
Proof.
  intros Hst line q.
  destruct (generate_answer_run self state st w Hst)
    as (w1 & d & w2 & w3 & final & w4 & [Hs1 [l1 Ht1]] & Hdoc & [Hs3 [l3 Ht3]] & Hfb & Hgen).
  assert (Hw1 : w1 = mkWorld (trace w ++ (EvPrint <$> l1)) (store w)).
  { destruct w1. cbn in *. by subst. }
  subst w1.
  destruct (answer_with_documents_events state st
              (mkWorld (trace w ++ (EvPrint <$> l1)) (store w)) Hst)
    as (d' & docevs & Hd & Hdocevs).
  rewrite Hd in Hdoc. injection Hdoc as -> <-. cbn [trace store] in *.
  assert (Hw3 : w3 = mkWorld (trace w ++ (EvPrint <$> l1) ++ docevs ++ (EvPrint <$> l3))
                       (store w)).
  { destruct w3. cbn in *. subst. by rewrite <- !(assoc_L (++)). }
  subst w3. clear Ht3 Hs3 Hs1 Ht1.
  exists d, final, l1, docevs, l3.
  destruct (is_incomplete_answer d).
  - destruct (answer_with_wikipedia_events state st d
                (mkWorld (trace w ++ (EvPrint <$> l1) ++ docevs ++ (EvPrint <$> l3))
                   (store w)) Hst)
      as (f & fbevs & Hf & Hfbevs).
    rewrite Hf in Hfb. injection Hfb as -> <-. cbn [trace store] in *.
    exists fbevs. rewrite Hgen. split_and!; [| done | done].
    by rewrite <- !(assoc_L (++)).
  - destruct Hfb as [-> ->]. exists []. rewrite Hgen. cbn [trace].
    split_and!; [| done..].
    by rewrite !(right_id_L [] (++)).
Qed.

End TurnEvents.

(** ** The orchestrator: calls and failures *)

Section OrchestratorCalls.
Import Py PyFacts.
Context (self : RAGNodes).

(** X3. A turn costs at most two calls of the generation service and at
    most one lookup, and never asks the retriever; it calls the generation
    service at all if and only if the turn has retrieved documents. *)
Theorem generate_answer_call_budget (state : loc) (st : RAGState) (w : World) :
  store w !! state = Some st →
  ∃ new w',
    generate_answer self state w = (Returned new, w')
    ∧ llm_invocations (events_since w w') ≤ 2
    ∧ wiki_runs (events_since w w') ≤ 1
    ∧ retrievals (events_since w w') = 0
    ∧ (llm_invocations (events_since w w') = 0 ↔ retrieved_docs st = []).
Proof.
  intros Hst.
  destruct (generate_answer_events self state st w Hst)
    as (d & final & l1 & docevs & l3 & fbevs & Hgen & Hdoc & Hfb).
  eexists _, _. split; [exact Hgen |].
  erewrite events_since_app by done.
  rewrite !llm_invocations_app, !wiki_runs_app, !retrievals_app.
  rewrite !llm_invocations_prints, !wiki_runs_prints, !retrievals_prints.
  destruct (retrieved_docs st) as [|doc docs]; injection Hdoc as -> ->.
  - assert (Hflag : is_incomplete_answer no_documents_answer = false) by by vm_compute.
    rewrite Hflag in Hfb. destruct Hfb as [_ ->]. cbn. split_and!; try lia; by split.
  - destruct (is_incomplete_answer _).
    + cbv zeta in Hfb.
      destruct (wiki_tool self _ _); destruct Hfb as [_ ->]; cbn;
        split_and!; try lia; by split.
    + destruct Hfb as [_ ->]. cbn. split_and!; try lia; by split.
Qed.

Lemma document_error_classified (e : Exception) :
  is_incomplete_answer (document_error e) = is_incomplete_answer (exc_str e).
Proof.
  unfold document_error, is_incomplete_answer. rewrite lower_app.
  generalize (lower (exc_str e)). intros text. by vm_compute.
Qed.

(** X4. An answer of the form "Error processing documents: <text>" is
    flagged by the classifier exactly when the text itself is flagged: the
    prefix holds no phrase and completes none. *)
Theorem document_error_flagged (detail : string) :
  is_incomplete_answer ("Error processing documents: " +:+ detail)
  = is_incomplete_answer detail.
Proof. apply (document_error_classified (mkException detail)). Qed.

(** X5. When the turn has documents and the generation service fails on
    the document prompt, the fallback runs exactly when the text of the
    exception is flagged; when it is not, the final answer is the error
    text, after a single call of the generation service and no lookup. *)
Theorem generate_answer_llm_failure (state : loc) (st : RAGState) (w : World)
    (e : Exception) :
  store w !! state = Some st →
  retrieved_docs st ≠ [] →
  (∀ h, llm self h (document_prompt_of st) = Raised e) →
  ∃ new w' final,
    generate_answer self state w = (Returned new, w')
    ∧ store w' !! new
      = Some (mkRAGState (question st) (retrieved_docs st) (Some final))
    ∧ wiki_runs (events_since w w')
      = (if is_incomplete_answer (exc_str e) then 1 else 0)
    ∧ (is_incomplete_answer (exc_str e) = false →
         final = "Error processing documents: " +:+ exc_str e
         ∧ llm_invocations (events_since w w') = 1).
Proof.
  intros Hst Hdocs Hfail.
  destruct (generate_answer_events self state st w Hst)
    as (d & final & l1 & docevs & l3 & fbevs & Hgen & Hdoc & Hfb).
  eexists _, _, final. split; [exact Hgen |].
  cbn [store]. split; [apply lookup_alloc_new |].
  erewrite events_since_app by done.
  rewrite !llm_invocations_app, !wiki_runs_app.
  rewrite !llm_invocations_prints, !wiki_runs_prints.
  destruct (retrieved_docs st) as [|doc docs]; [done |].
  rewrite Hfail in Hdoc. injection Hdoc as -> ->.
  rewrite document_error_classified in Hfb.
  destruct (is_incomplete_answer (exc_str e)).
  - cbv zeta in Hfb. split; [| done].
    by destruct (wiki_tool self _ _); destruct Hfb as [_ ->].
  - destruct Hfb as [-> ->]. by split.
Qed.

End OrchestratorCalls.

(** ** Retrieval followed by the orchestrator *)

Section Pipeline.
Import Py PyFacts.
Context (self : RAGNodes).

(** X6. Retrieval followed by the orchestrator on the turn it returned:
    when the retriever returns, the run ends with a turn that has the
    question of the first turn, the retrieved documents and an answer; the
    first turn is as before, two turns were created, the retriever was
    asked once, and with no retrieved document the answer is the fixed
    sentence, reached without any call of the generation service or the
    lookup. *)
Theorem retrieve_then_generate (state : loc) (st : RAGState) (w : World)
    (docs : list Document) :
  store w !! state = Some st →
  retriever self (trace w) (question st) = Returned docs →
  ∃ new w' final,
    (retrieve_docs self state ≫= generate_answer self) w = (Returned new, w')
    ∧ store w' !! new = Some (mkRAGState (question st) docs (Some final))
    ∧ (∀ l old, store w !! l = Some old → store w' !! l = Some old)
    ∧ length (store w') = length (store w) + 2
    ∧ retrievals (events_since w w') = 1
    ∧ llm_invocations (events_since w w') ≤ 2
    ∧ wiki_runs (events_since w w') ≤ 1
    ∧ (docs = [] →
         final = no_documents_answer
         ∧ llm_invocations (events_since w w') = 0
         ∧ wiki_runs (events_since w w') = 0).
Proof.
  intros Hst Hret. unfold mbind, M_bind.
  rewrite (retrieve_docs_run _ _ _ _ Hst), Hret. cbv zeta.
  set (line := EvPrint _).
  set (st1 := mkRAGState (question st) docs None).
  set (w1 := mkWorld _ (store w ++ [st1])).
  assert (Hst1 : store w1 !! length (store w) = Some st1) by apply lookup_alloc_new.
  destruct (generate_answer_events self _ _ w1 Hst1)
    as (d & final & l1 & docevs & l3 & fbevs & Hgen & Hdoc & Hfb).
  rewrite Hgen. eexists _, _, final. split; [done |].
  unfold w1 in *. cbn [store trace] in *.
  split; [by rewrite lookup_alloc_new |].
  split; [intros l old Hl; by do 2 apply lookup_alloc_old |].
  split; [rewrite !length_app; simpl; lia |].
  erewrite events_since_app; [| cbn [trace]; by rewrite <- (assoc_L (++))].
  rewrite !llm_invocations_app, !wiki_runs_app, !retrievals_app.
  rewrite !llm_invocations_prints, !wiki_runs_prints, !retrievals_prints.
  cbn [st1 retrieved_docs question] in Hdoc, Hfb.
  assert (Hflag : is_incomplete_answer no_documents_answer = false) by by vm_compute.
  destruct docs as [|doc docs]; injection Hdoc as -> ->.
  - rewrite Hflag in Hfb. destruct Hfb as [-> ->]. cbn. split_and!; try lia; done.
  - destruct (is_incomplete_answer _).
    + cbv zeta in Hfb.
      destruct (wiki_tool self _ _); destruct Hfb as [_ ->]; cbn;
        split_and!; try lia; done.
    + destruct Hfb as [_ ->]. cbn. split_and!; try lia; done.
Qed.

End Pipeline.

(** ** What the prompts hold *)

Section Prompts.
Import Py PyFacts.

Lemma occurs_in_refl s : occurs_in s s.
Proof. exists "", "". by rewrite str_app_nil_r. Qed.

Lemma occurs_in_app_l p a b : occurs_in p a → occurs_in p (a +:+ b).
Proof. intros (pre & post & ->). exists pre, (post +:+ b). by rewrite !str_app_assoc. Qed.

Lemma occurs_in_app_r p a b : occurs_in p b → occurs_in p (a +:+ b).
Proof. intros (pre & post & ->). exists (a +:+ pre), post. by rewrite !str_app_assoc. Qed.

Lemma occurs_in_trans p s t : occurs_in p s → occurs_in s t → occurs_in p t.
Proof.
  intros Hps (pre & post & ->). by apply occurs_in_app_r, occurs_in_app_l.
Qed.

(** A joined text holds each of its parts. *)
Lemma occurs_in_join sep x l : x ∈ l → occurs_in x (join sep l).
Proof.
  induction l as [|y l IH]; [by intros ?%elem_of_nil |].
  intros [-> | Hx]%elem_of_cons.
  - destruct l; [apply occurs_in_refl |]. rewrite join_cons.
    apply occurs_in_app_l, occurs_in_refl.
  - destruct l as [|z l]; [by apply elem_of_nil in Hx |]. rewrite join_cons.
    by apply occurs_in_app_r, occurs_in_app_r, IH.
Qed.

(** Find a part in an explicit list of parts. *)
Ltac find_part :=
  repeat first [apply list_elem_of_here | apply list_elem_of_further].

(** X7. The prompt of the document answerer holds the question and, for
    every retrieved document, a section made of the heading with its
    number (from 1) and its label, a line feed and its whole text; the
    label is the [source] entry of the metadata, else the [title] entry,
    else "Document" with the number. *)
Theorem document_prompt_grounded (st : RAGState) :
  occurs_in (question st) (document_prompt_of st)
  ∧ ∀ i doc, retrieved_docs st !! i = Some doc →
      let meta := default ∅ (metadata doc) in
      let label :=
        match meta !! "source", meta !! "title" with
        | Some source, _ => source
        | None, Some title => title
        | None, None => "Document " +:+ str_of_nat (S i)
        end in
      occurs_in ("[Document " +:+ str_of_nat (S i) +:+ " - " +:+ label +:+ "]" +:+ nl
                 +:+ page_content doc)
                (document_prompt_of st).
Proof.
  unfold document_prompt_of, document_prompt. split.
  - apply (occurs_in_trans _ ("USER QUESTION: " +:+ question st)).
    + apply occurs_in_app_r, occurs_in_refl.
    + apply occurs_in_join. find_part.
  - intros i doc Hdoc. cbv zeta.
    apply (occurs_in_trans _
             (join (nl +:+ nl)
                (imap (λ i doc, context_part (S i) doc) (retrieved_docs st))));
      [| apply occurs_in_join; find_part].
    apply occurs_in_join. apply list_elem_of_lookup. exists i.
    rewrite list_lookup_imap, Hdoc. simpl. f_equal.
Qed.

Lemma document_prompt_grounded_witness :
  occurs_in ("[Document 1 - atlas.txt]" +:+ nl +:+ "Paris is the capital of France.")
            (document_prompt_of (mkRAGState france_question [paris_doc] None)).
Proof.
  apply (proj2 (document_prompt_grounded (mkRAGState france_question [paris_doc] None))
           0 paris_doc eq_refl).
Defined.

End Prompts.

(** ** The calls of the fallback synthesizer *)

Section FallbackCalls.
Import Py PyFacts.
Context (self : RAGNodes).

Ltac find_part :=
  repeat first [apply list_elem_of_here | apply list_elem_of_further].

(** The combined prompt holds the question, the document answer and the
    text of the lookup. *)
Lemma combined_prompt_holds q doc_answer wiki_content :
  occurs_in q (combined_prompt q doc_answer wiki_content)
  ∧ occurs_in doc_answer (combined_prompt q doc_answer wiki_content)
  ∧ occurs_in wiki_content (combined_prompt q doc_answer wiki_content).
Proof.
  unfold combined_prompt. split_and!.
  - apply (occurs_in_trans _ ("ORIGINAL QUESTION: " +:+ q)).
    + apply occurs_in_app_r, occurs_in_refl.
    + apply occurs_in_join. find_part.
  - apply occurs_in_join. find_part.
  - apply occurs_in_join. do 8 apply list_elem_of_further. apply list_elem_of_here.
Qed.

(** X8. The fallback synthesizer issues exactly one lookup, and its query
    is [extract_key_terms] of the question.  When the lookup raises, the
    generation service is not called.  When the lookup returns a text, the
    generation service is called exactly once, with a prompt that holds
    the question, the document answer and that text. *)
Theorem answer_with_wikipedia_calls (state : loc) (st : RAGState)
    (doc_answer : string) (w : World) :
  store w !! state = Some st →
  let h := trace w ++ [EvPrint "DEBUG: Using Wikipedia fallback for additional information"] in
  let q := extract_key_terms (question st) in
  ∃ final w',
    answer_with_wikipedia self state doc_answer w = (Returned final, w')
    ∧ wiki_runs (events_since w w') = 1
    ∧ (∀ q', EvWikiRun q' ∈ events_since w w' → q' = q)
    ∧ match wiki_tool self h q with
      | Raised _ => llm_invocations (events_since w w') = 0
      | Returned wiki_content =>
          ∃ prompt,
            llm_invocations (events_since w w') = 1
            ∧ (∀ p, EvLlmInvoke p ∈ events_since w w' ↔ p = prompt)
            ∧ occurs_in (question st) prompt
            ∧ occurs_in doc_answer prompt
            ∧ occurs_in wiki_content prompt
      end.
Proof.
  intros Hst h q.
  destruct (answer_with_wikipedia_events self state st doc_answer w Hst)
    as (final & fbevs & Hrun & Hcase).
  cbv zeta in Hcase. fold h q in Hcase.
  eexists _, _. split; [exact Hrun |].
  erewrite events_since_app by done.
  destruct (wiki_tool self h q) as [wiki_content | e]; destruct Hcase as [_ ->].
  - split; [done |]. split.
    + intros q' Hq'. repeat (apply elem_of_cons in Hq' as [Hq' | Hq']; try done).
      * by injection Hq'.
      * by apply elem_of_nil in Hq'.
    + exists (combined_prompt (question st) doc_answer wiki_content).
      split; [done |]. split; [| apply combined_prompt_holds].
      intros p. split.
      * intros Hp. repeat (apply elem_of_cons in Hp as [Hp | Hp]; try done).
        -- by injection Hp.
        -- by apply elem_of_nil in Hp.
      * intros ->. find_part.
  - split; [done |]. split; [| done].
    intros q' Hq'. repeat (apply elem_of_cons in Hq' as [Hq' | Hq']; try done).
    + by injection Hq'.
    + by apply elem_of_nil in Hq'.
Qed.

End FallbackCalls.

(** ** More on the extractor and the classifier *)

Section ExtractorShape.
Import Py PyFacts.

Lemma key_words_lower question : key_words (lower question) = key_words question.
Proof. unfold key_words. by rewrite lower_idemp. Qed.

(** X9. When some token of the question survives the filter, the result
    is the first surviving tokens, five at most, joined by single spaces:
    searching the result for words gives exactly these tokens back, each
    is lower-case, longer than two characters and no stop-word, and the
    result is the same for the lower-cased question. *)
Theorem extract_key_terms_shape (question : string) :
  key_words question ≠ [] →
  ∃ terms,
    extract_key_terms question = join " " terms
    ∧ terms = take 5 (key_words question)
    ∧ 1 ≤ length terms ≤ 5
    ∧ findall_words (extract_key_terms question) = terms
    ∧ Forall (λ t, (t ∉ stop_words) ∧ 2 < String.length t ∧ lower t = t) terms
    ∧ extract_key_terms (lower question) = extract_key_terms question.
Proof.
  intros Hne. exists (take 5 (key_words question)).
  pose proof (key_words_spec question) as Hspec.
  assert (Hres : extract_key_terms question = join " " (take 5 (key_words question))).
  { rewrite extract_key_terms_unfold. by destruct (key_words question). }
  assert (Htake : Forall (λ t, is_key_word t ∧ is_token t ∧ lower t = t)
                    (take 5 (key_words question))) by by apply Forall_take.
  split_and!; [done | done | | | | |].
  - destruct (key_words question); [done | simpl; lia].
  - rewrite length_take. lia.
  - rewrite Hres, findall_words_runs. apply word_runs_join.
    eapply Forall_impl; [exact Htake |]. by intros t (_ & ? & _).
  - eapply Forall_impl; [exact Htake |]. by intros t ([? ?] & _ & ?).
  - rewrite (extract_key_terms_unfold (lower question)), key_words_lower.
    rewrite (extract_key_terms_unfold question).
    by destruct (key_words question).
Qed.

Lemma extract_key_terms_shape_witness :
  ∃ terms,
    extract_key_terms "How does photosynthesis work in C4 plants like maize or sugarcane?"
    = join " " terms ∧ length terms = 5.
Proof.
  destruct (extract_key_terms_shape
              "How does photosynthesis work in C4 plants like maize or sugarcane?"
              ltac:(by vm_compute))
    as (terms & Hres & -> & _).
  exists (take 5 (key_words "How does photosynthesis work in C4 plants like maize or sugarcane?")).
  split; [exact Hres | reflexivity].
Defined.

(** X10. The classifier does not look at letter case, and text added
    before or after a flagged answer leaves it flagged. *)
Theorem is_incomplete_answer_stable (answer : string) :
  is_incomplete_answer (lower answer) = is_incomplete_answer answer
  ∧ ∀ before after,
      is_incomplete_answer answer = true →
      is_incomplete_answer (before +:+ answer +:+ after) = true.
Proof.
  split.
  - unfold is_incomplete_answer. by rewrite lower_idemp.
  - intros before after (phrase & Hin & Hocc)%is_incomplete_answer_spec.
    apply is_incomplete_answer_spec. exists phrase. split; [done |].
    rewrite !lower_app. by apply occurs_in_app_r, occurs_in_app_l.
Qed.

Lemma is_incomplete_answer_stable_witness :
  is_incomplete_answer ("Summary: " +:+ "the year is NOT MENTIONED" +:+ " in the report.") = true.
Proof.
  apply (proj2 (is_incomplete_answer_stable "the year is NOT MENTIONED")). reflexivity.
Defined.

End ExtractorShape.

(** ** The ReAct alternative *)

Section React.
Import Py PyFacts.
Context (self : RAGNodes).

Ltac read_state H :=
  repeat (cbv beta iota; cbn [store trace emit]; rewrite H); cbv beta iota.

(** X11. The Wikipedia tool never raises: it issues one lookup with the
    query it was given and returns the text of the lookup, or, when the
    lookup raises, "Wikipedia search failed: " followed by the text of the
    exception. *)
Theorem wikipedia_tool_never_raises (query : string) (w : World) :
  ∃ text w',
    wikipedia_tool self query w = (Returned text, w')
    ∧ store w' = store w
    ∧ events_since w w' = [EvWikiRun query]
    ∧ text = match wiki_tool self (trace w) query with
             | Returned wiki_content => wiki_content
             | Raised e => "Wikipedia search failed: " +:+ exc_str e
             end.
Proof.
  unfold wikipedia_tool, try_except, wiki_tool_run, call, mret, M_ret.
  destruct (wiki_tool self (trace w) query); eexists _, _;
    (split; [done |]); split_and!; try done; by erewrite events_since_app.
Qed.

Lemma str_take_length n s : String.length (str_take n s) ≤ n.
Proof.
  revert s. induction n as [|n IH]; intros [|c s]; simpl; try lia.
  specialize (IH s). lia.
Qed.

Lemma str_take_all n s : String.length s ≤ n → str_take n s = s.
Proof.
  revert s. induction n as [|n IH]; intros [|c s]; simpl; try done; try lia.
  intros Hlen. rewrite IH; [done | lia].
Qed.

(** X12. The document tool does not use its query and adds no event.  For
    a turn without documents it returns "No documents available from
    uploads."; otherwise its text starts with the heading and holds, for
    every document, a section with the label ([source], else "Document"
    with the number; the title is not used) and the first 800 characters
    of the text, which is the whole text when it is no longer. *)
Theorem document_tool_text (state : loc) (st : RAGState) (w : World) :
  store w !! state = Some st →
  ∃ text,
    (∀ query, document_tool state query w = (Returned text, w))
    ∧ (retrieved_docs st = [] → text = "No documents available from uploads.")
    ∧ (retrieved_docs st ≠ [] →
         startswith ("UPLOADED DOCUMENTS:" +:+ nl +:+ nl) text = true
         ∧ ∀ i doc, retrieved_docs st !! i = Some doc →
             let label :=
               default ("Document " +:+ str_of_nat (S i))
                       (default ∅ (metadata doc) !! "source") in
             occurs_in ("[" +:+ label +:+ "]" +:+ nl +:+ str_take 800 (page_content doc)) text
             ∧ String.length (str_take 800 (page_content doc)) ≤ 800
             ∧ (String.length (page_content doc) ≤ 800 →
                  occurs_in (page_content doc) text)).
Proof.
  intros Hst. unfold document_tool, mbind, M_bind, getattr, mret, M_ret.
  read_state Hst.
  destruct (retrieved_docs st) as [|d ds] eqn:Hdocs.
  - eexists. split; [done |]. by split.
  - read_state Hst. rewrite <- Hdocs. eexists. split; [done |]. split; [by rewrite Hdocs |].
    intros _. split; [apply startswith_spec; by eexists |].
    intros i doc Hdoc.
    set (label := default ("Document " +:+ str_of_nat (S i))
                    (default ∅ (metadata doc) !! "source")).
    assert (Hpart : occurs_in
              ("[" +:+ label +:+ "]" +:+ nl +:+ str_take 800 (page_content doc))
              ("UPLOADED DOCUMENTS:" +:+ nl +:+ nl
               +:+ join (nl +:+ nl) (imap (λ i doc, tool_context_part (S i) doc)
                                       (retrieved_docs st)))).
    { do 3 apply occurs_in_app_r. apply occurs_in_join.
      apply list_elem_of_lookup. exists i. by rewrite list_lookup_imap, Hdoc. }
    split_and!; [done | apply str_take_length |].
    intros Hlen. eapply occurs_in_trans; [| exact Hpart].
    rewrite (str_take_all _ _ Hlen). do 4 apply occurs_in_app_r. apply occurs_in_refl.
Qed.

Lemma document_tool_text_witness :
  ∃ text,
    document_tool 0 "capital" (one_turn france_question [paris_doc]) = (Returned text, one_turn france_question [paris_doc])
    ∧ occurs_in "Paris is the capital of France." text.
Proof.
  destruct (document_tool_text 0 (mkRAGState france_question [paris_doc] None)
              (one_turn france_question [paris_doc]) eq_refl)
    as (text & Hrun & _ & Hdocs).
  exists text. split; [apply Hrun |].
  destruct (Hdocs ltac:(discriminate)) as [_ Hparts].
  apply (Hparts 0 paris_doc eq_refl). simpl. lia.
Defined.

(** The answer taken from the result of the agent. *)
Lemma agent_answer_cases (result : AgentResult) :
  match result_messages result with
  | None | Some [] => agent_answer result = "Could not generate answer."
  | Some ((_ :: _) as messages) =>
      ∃ before answer_msg,
        messages = before ++ [answer_msg]
        ∧ agent_answer result
          = default "Could not generate answer." (msg_content answer_msg)
  end.
Proof.
  unfold agent_answer. destruct (result_messages result) as [[|m ms] |]; [done | | done].
  simpl default at 1.
  destruct (last (m :: ms)) as [answer_msg |] eqn:Hlast.
  - apply last_Some in Hlast as [before Hms]. by exists before, answer_msg.
  - by apply last_None in Hlast.
Qed.

(** X13. When the agent returns and the turn is where it was, the ReAct
    variant returns a reference to a new turn with the question and the
    documents of the input and an answer, and adds no event of its own;
    the agent was given the two tools, the document tool first.  The
    answer is the [content] of the last message of the result, and
    "Could not generate answer." when the result has no message list, an
    empty one, or a last message without [content]. *)
Theorem generate_answer_with_react_agent_answer (agent : ReactAgent)
    (state : loc) (st : RAGState) (w w2 : World) (result : AgentResult) :
  store w !! state = Some st →
  agent (react_tools self state) react_system_prompt (question st) w = (Returned result, w2) →
  store w2 !! state = Some st →
  ∃ answer,
    generate_answer_with_react_agent self agent state w
      = (Returned (length (store w2)),
         mkWorld (trace w2)
           (store w2 ++ [mkRAGState (question st) (retrieved_docs st) (Some answer)]))
    ∧ tool_name <$> react_tools self state = ["uploaded_documents"; "wikipedia_search"]
    ∧ match result_messages result with
      | None | Some [] => answer = "Could not generate answer."
      | Some ((_ :: _) as messages) =>
          ∃ before answer_msg,
            messages = before ++ [answer_msg]
            ∧ answer = default "Could not generate answer." (msg_content answer_msg)
      end.
Proof.
  intros Hst Hagent Hst2. exists (agent_answer result).
  split; [| split; [done | apply agent_answer_cases]].
  unfold generate_answer_with_react_agent, mbind, M_bind, getattr.
  read_state Hst. rewrite Hagent. unfold new_RAGState. by read_state Hst2.
Qed.

(** X14. A failure of the agent is not caught: the ReAct variant raises
    the same exception and creates no turn. *)
Theorem generate_answer_with_react_agent_failure (agent : ReactAgent)
    (state : loc) (st : RAGState) (w w2 : World) (e : Exception) :
  store w !! state = Some st →
  agent (react_tools self state) react_system_prompt (question st) w = (Raised e, w2) →
  generate_answer_with_react_agent self agent state w = (Raised e, w2).
Proof.
  intros Hst Hagent.
  unfold generate_answer_with_react_agent, mbind, M_bind, getattr.
  read_state Hst. by rewrite Hagent.
Qed.

End React.

(** ** Document ingestion *)

Section IngestionRuns.
Import Ingestion.
Context (lib : Library).

(** Unfold the plumbing of the [IO] monad. *)
Ltac io_unfold :=
  unfold io_try, io_call, io_print, io_raise, mbind, IO_bind, mret, IO_ret.

Lemma load_from_url_run url h :
  load_from_url lib url h =
    match web_base_loader lib h url with
    | Returned docs => (Returned docs, h ++ [WebLoad url])
    | Raised e =>
        (Returned [],
         h ++ [WebLoad url;
               IoPrint ("Error loading URL " +:+ url +:+ ": " +:+ exc_str e)])
    end.
Proof.
  unfold load_from_url. io_unfold.
  destruct (web_base_loader lib h url); [done |]. by rewrite <- (assoc_L (++)).
Qed.

Lemma load_from_pdf_dir_run directory h :
  load_from_pdf_dir lib directory h =
    match py_pdf_directory_loader lib h (path_text directory) with
    | Returned docs => (Returned docs, h ++ [PdfDirLoad (path_text directory)])
    | Raised e =>
        (Returned [],
         h ++ [PdfDirLoad (path_text directory);
               IoPrint ("Error loading PDF directory " +:+ path_text directory +:+ ": "
                        +:+ exc_str e)])
    end.
Proof.
  unfold load_from_pdf_dir. io_unfold.
  destruct (py_pdf_directory_loader lib h _); [done |]. by rewrite <- (assoc_L (++)).
Qed.

Lemma load_from_txt_run file_path h :
  load_from_txt lib file_path h =
    match text_loader lib h (path_text file_path) with
    | Returned docs => (Returned docs, h ++ [TextLoad (path_text file_path)])
    | Raised e =>
        (Returned [],
         h ++ [TextLoad (path_text file_path);
               IoPrint ("Error loading TXT file " +:+ path_text file_path +:+ ": "
                        +:+ exc_str e)])
    end.
Proof.
  unfold load_from_txt. io_unfold.
  destruct (text_loader lib h _); [done |]. by rewrite <- (assoc_L (++)).
Qed.

Lemma load_from_pdf_run file_path h :
  load_from_pdf lib file_path h =
    match py_pdf_loader lib h (path_text file_path) with
    | Returned docs => (Returned docs, h ++ [PdfLoad (path_text file_path)])
    | Raised e =>
        (Returned [],
         h ++ [PdfLoad (path_text file_path);
               IoPrint ("Error loading PDF file " +:+ path_text file_path +:+ ": "
                        +:+ exc_str e)])
    end.
Proof.
  unfold load_from_pdf. io_unfold.
  destruct (py_pdf_loader lib h _); [done |]. by rewrite <- (assoc_L (++)).
Qed.

(** [load_from_file] when the query of the file system returns. *)
Lemma load_from_file_run file_path h found :
  let p := to_path lib file_path in
  let extension := Py.lower (path_suffix lib p) in
  fs_exists lib h p = Returned found →
  load_from_file lib file_path h =
    if negb found then
      (Returned [], h ++ [FsExists p; IoPrint ("File does not exist: " +:+ p)])
    else if decide (extension = ".pdf") then
      load_from_pdf lib (PPath p) (h ++ [FsExists p])
    else if decide (extension ∈ [".txt"; ".md"]) then
      load_from_txt lib (PPath p) (h ++ [FsExists p])
    else
      (Returned [],
       h ++ [FsExists p; IoPrint ("Unsupported file type: " +:+ extension)]).
Proof.
  intros p extension Hfound. unfold load_from_file. fold p. fold extension.
  unfold io_call, mbind, IO_bind at 1. rewrite Hfound. cbv beta iota.
  destruct found; cbn [negb]; cbv beta iota.
  - destruct (decide (extension = ".pdf")); [done |].
    destruct (decide (extension ∈ [".txt"; ".md"])); [done |].
    io_unfold. by rewrite <- (assoc_L (++)).
  - io_unfold. by rewrite <- (assoc_L (++)).
Qed.

(** The loop: when every load returns, the loop returns, and what holds of
    the events and the documents of each load holds of the whole. *)
Lemma extend_each_run {A} (load : A → IO (list Document)) (items : list A)
    (docs : list Document) (h : list IoEvent) :
  (∀ x h, ∃ loaded evs, load x h = (Returned loaded, h ++ evs)) →
  ∃ out evs,
    extend_each load items docs h = (Returned out, h ++ evs)
    ∧ (∀ (p : IoEvent → bool) (g : A → list IoEvent),
         (∀ x h loaded evs, load x h = (Returned loaded, h ++ evs) →
            List.filter p evs = g x) →
         List.filter p evs = concat (g <$> items))
    ∧ (∀ f : A → list Document,
         (∀ x h loaded evs, load x h = (Returned loaded, h ++ evs) → loaded = f x) →
         out = docs ++ concat (f <$> items))
    ∧ (∀ Q : A → IoEvent → Prop,
         (∀ x h loaded evs, load x h = (Returned loaded, h ++ evs) → Forall (Q x) evs) →
         Forall (λ ev, ∃ x, x ∈ items ∧ Q x ev) evs)
    ∧ (∀ (p : IoEvent → bool) (k : nat),
         (∀ x h loaded evs, load x h = (Returned loaded, h ++ evs) →
            length (List.filter p evs) ≤ k) →
         length (List.filter p evs) ≤ k * length items).
Proof.
  intros Hload. revert docs h.
  induction items as [|x items IH]; intros docs h.
  - exists docs, []. rewrite !(right_id_L [] (++)). split_and!; [done | done | | done |].
    + intros f _. simpl. by rewrite (right_id_L [] (++)).
    + intros p k _. simpl. lia.
  - destruct (Hload x h) as (loaded & evs1 & Hx).
    destruct (IH (docs ++ loaded) (h ++ evs1))
      as (out & evs2 & Hrest & Hev & Hdocs & Hall & Hcount).
    exists out, (evs1 ++ evs2). split_and!.
    + simpl. unfold mbind, IO_bind. rewrite Hx, Hrest. by rewrite (assoc_L (++)).
    + intros p g Hg. rewrite List.filter_app, (Hg _ _ _ _ Hx), (Hev p g Hg). done.
    + intros f Hf. rewrite (Hdocs f Hf), (Hf _ _ _ _ Hx).
      simpl. by rewrite (assoc_L (++)).
    + intros Q HQ. apply Forall_app. split.
      * eapply Forall_impl; [exact (HQ _ _ _ _ Hx) |].
        intros ev Hev1. exists x. split; [by left | done].
      * eapply Forall_impl; [exact (Hall Q HQ) |].
        intros ev (y & Hy & HQy). exists y. split; [by right | done].
    + intros p k Hk. rewrite List.filter_app, length_app.
      pose proof (Hk _ _ _ _ Hx). pose proof (Hcount p k Hk). simpl. lia.
Qed.

End IngestionRuns.

Section IngestionProperties.
Import Ingestion.

(** X15. None of the four loading functions raises when its loader
    fails: each asks its loader once, with the text of its argument, and
    returns the documents of the loader, or no document when the loader
    raised. *)
Theorem loaders_contain_failures (lib : Library) (h : list IoEvent) :
  (∀ url, ∃ docs evs,
     load_from_url lib url h = (Returned docs, h ++ evs)
     ∧ List.filter is_load evs = [WebLoad url]
     ∧ docs = match web_base_loader lib h url with
              | Returned loaded => loaded | Raised _ => [] end)
  ∧ (∀ directory, ∃ docs evs,
       load_from_pdf_dir lib directory h = (Returned docs, h ++ evs)
       ∧ List.filter is_load evs = [PdfDirLoad (path_text directory)]
       ∧ docs = match py_pdf_directory_loader lib h (path_text directory) with
                | Returned loaded => loaded | Raised _ => [] end)
  ∧ (∀ file_path, ∃ docs evs,
       load_from_txt lib file_path h = (Returned docs, h ++ evs)
       ∧ List.filter is_load evs = [TextLoad (path_text file_path)]
       ∧ docs = match text_loader lib h (path_text file_path) with
                | Returned loaded => loaded | Raised _ => [] end)
  ∧ (∀ file_path, ∃ docs evs,
       load_from_pdf lib file_path h = (Returned docs, h ++ evs)
       ∧ List.filter is_load evs = [PdfLoad (path_text file_path)]
       ∧ docs = match py_pdf_loader lib h (path_text file_path) with
                | Returned loaded => loaded | Raised _ => [] end).
Proof.
  split_and!.
  - intros url. rewrite load_from_url_run.
    destruct (web_base_loader lib h url); by eexists _, _.
  - intros directory. rewrite load_from_pdf_dir_run.
    destruct (py_pdf_directory_loader lib h _); by eexists _, _.
  - intros file_path. rewrite load_from_txt_run.
    destruct (text_loader lib h _); by eexists _, _.
  - intros file_path. rewrite load_from_pdf_run.
    destruct (py_pdf_loader lib h _); by eexists _, _.
Qed.

(** X16. [load_from_file] asks no loader and returns no document for a
    file that does not exist and for a file whose suffix, lower-cased, is
    none of ".pdf", ".txt" and ".md". *)
Theorem load_from_file_skips (lib : Library) (file_path : PathLike)
    (h : list IoEvent) (found : bool) :
  let p := to_path lib file_path in
  let extension := Py.lower (path_suffix lib p) in
  fs_exists lib h p = Returned found →
  found = false ∨ extension ∉ [".pdf"; ".txt"; ".md"] →
  ∃ evs,
    load_from_file lib file_path h = (Returned [], h ++ evs)
    ∧ List.filter is_load evs = [].
Proof.
  intros p extension Hfound Hskip.
  rewrite (load_from_file_run lib file_path h found Hfound). fold p extension.
  destruct found; cbn [negb]; cbv iota.
  - destruct Hskip as [? | Hext]; [done |].
    destruct (decide (extension = ".pdf")) as [Heq | _].
    { destruct Hext. rewrite Heq. by left. }
    destruct (decide (extension ∈ [".txt"; ".md"])) as [Hin | _].
    { destruct Hext. by right. }
    by eexists.
  - by eexists.
Qed.

Lemma load_from_file_skips_witness :
  ∃ evs,
    load_from_file example_library (PStr "notes.docx") [] = (Returned [], evs)
    ∧ List.filter is_load evs = [].
Proof.
  destruct (load_from_file_skips example_library (PStr "notes.docx") [] true eq_refl)
    as (evs & Hrun & Hevs).
  - right. vm_compute. intros Hin.
    repeat (apply elem_of_cons in Hin as [Hin | Hin]; [discriminate |]).
    by apply elem_of_nil in Hin.
  - by exists evs.
Defined.

(** X17. For a file that exists, [load_from_file] chooses the loader by
    the lower-cased suffix: the PDF loader for ".pdf", the text loader for
    ".txt" and ".md".  It asks that loader once, with the path as
    [str(Path(...))] gives it, and returns its documents, or no document
    when the loader raised. *)
Theorem load_from_file_by_extension (lib : Library) (file_path : PathLike)
    (h : list IoEvent) :
  let p := to_path lib file_path in
  let extension := Py.lower (path_suffix lib p) in
  fs_exists lib h p = Returned true →
  (extension = ".pdf" →
     ∃ docs evs,
       load_from_file lib file_path h = (Returned docs, h ++ evs)
       ∧ List.filter is_load evs = [PdfLoad p]
       ∧ docs = match py_pdf_loader lib (h ++ [FsExists p]) p with
                | Returned loaded => loaded | Raised _ => [] end)
  ∧ (extension = ".txt" ∨ extension = ".md" →
       ∃ docs evs,
         load_from_file lib file_path h = (Returned docs, h ++ evs)
         ∧ List.filter is_load evs = [TextLoad p]
         ∧ docs = match text_loader lib (h ++ [FsExists p]) p with
                  | Returned loaded => loaded | Raised _ => [] end).
Proof.
  intros p extension Hfound.
  rewrite (load_from_file_run lib file_path h true Hfound). fold p extension.
  cbn [negb]. cbv iota. split.
  - intros Hext. rewrite decide_True by done. rewrite load_from_pdf_run. cbn [path_text].
    destruct (py_pdf_loader lib _ p); eexists _, _;
      (split; [by rewrite <- (assoc_L (++)) |]); done.
  - intros Hext. rewrite decide_False by (by destruct Hext as [-> | ->]).
    rewrite decide_True by (destruct Hext as [-> | ->]; set_solver).
    rewrite load_from_txt_run. cbn [path_text].
    destruct (text_loader lib _ p); eexists _, _;
      (split; [by rewrite <- (assoc_L (++)) |]); done.
Qed.

Lemma load_from_file_by_extension_witness :
  ∃ evs,
    load_from_file example_library (PStr "paper.PDF") []
    = (Returned [mkDocument "paper.PDF" None], evs)
    ∧ List.filter is_load evs = [PdfLoad "paper.PDF"].
Proof.
  destruct (proj1 (load_from_file_by_extension example_library (PStr "paper.PDF") []
                     eq_refl) eq_refl)
    as (docs & evs & Hrun & Hevs & ->).
  by exists evs.
Defined.

(** *** The processing pipelines *)

Lemma concat_singletons {A B} (f : A → B) (l : list A) :
  concat ((λ x, [f x]) <$> l) = f <$> l.
Proof. induction l as [|x l IH]; csimpl; [done | by rewrite IH]. Qed.

Lemma concat_nils {A B} (l : list A) : concat ((λ _, @nil B) <$> l) = [].
Proof. by induction l. Qed.

(** The end of the three pipelines: nothing loaded is an error, anything
    else goes to the splitter. *)
Lemma finish_run (self : DocumentProcessor) (message : string)
    (docs : list Document) (h : list IoEvent) :
  match docs with
  | [] => io_raise message
  | _ :: _ => split_documents self docs
  end h
  = match docs with
    | [] => (Raised (mkException message), h)
    | _ :: _ => (splitter self h docs, h ++ [SplitDocs docs])
    end.
Proof. by destruct docs. Qed.

Lemma load_from_url_events (lib : Library) url h loaded evs :
  load_from_url lib url h = (Returned loaded, h ++ evs) →
  List.filter is_load evs = [WebLoad url]
  ∧ List.filter is_fs_query evs = []
  ∧ List.filter is_split evs = []
  ∧ loaded = match web_base_loader lib h url with
             | Returned docs => docs | Raised _ => [] end.
Proof.
  rewrite load_from_url_run.
  destruct (web_base_loader lib h url); intros [= <- <-%app_inv_head]; done.
Qed.

Lemma load_from_url_returns (lib : Library) url h :
  ∃ loaded evs, load_from_url lib url h = (Returned loaded, h ++ evs).
Proof.
  rewrite load_from_url_run. destruct (web_base_loader lib h url); by eexists _, _.
Qed.

(** X18. [process_urls] tries every URL, in the order given, whatever
    the earlier ones did, and never looks at the file system.  With no
    document loaded it raises the error "No documents could be loaded
    from the provided URLs" and does not call the splitter; otherwise it
    calls the splitter once, last, on a list of documents that is not
    empty, and its outcome is the outcome of the splitter. *)
Theorem process_urls_attempts_all (lib : Library) (self : DocumentProcessor)
    (urls : list string) (h : list IoEvent) :
  ∃ out evs docs,
    process_urls lib self urls h = (out, h ++ evs)
    ∧ List.filter is_load evs = WebLoad <$> urls
    ∧ List.filter is_fs_query evs = []
    ∧ match docs with
      | [] =>
          out = Raised (mkException "No documents could be loaded from the provided URLs")
          ∧ List.filter is_split evs = []
      | _ :: _ =>
          List.filter is_split evs = [SplitDocs docs]
          ∧ ∃ before, evs = before ++ [SplitDocs docs]
                      ∧ out = splitter self (h ++ before) docs
      end.
Proof.
  destruct (extend_each_run (load_from_url lib) urls [] h (load_from_url_returns lib))
    as (docs & evs & Hrun & Hev & _).
  pose proof (Hev is_load (λ url, [WebLoad url])
                (λ x h l e H, proj1 (load_from_url_events lib x h l e H))) as Hloads.
  pose proof (Hev is_fs_query (λ _, [])
                (λ x h l e H, proj1 (proj2 (load_from_url_events lib x h l e H)))) as Hfs.
  pose proof (Hev is_split (λ _, [])
                (λ x h l e H, proj1 (proj2 (proj2 (load_from_url_events lib x h l e H)))))
    as Hsplit.
  rewrite concat_singletons in Hloads. rewrite concat_nils in Hfs, Hsplit.
  unfold process_urls, mbind, IO_bind. rewrite Hrun, finish_run.
  destruct docs as [|doc docs].
  - exists (Raised (mkException "No documents could be loaded from the provided URLs")),
      evs, []. by split_and!.
  - eexists _, (evs ++ [SplitDocs (doc :: docs)]), (doc :: docs).
    rewrite !List.filter_app, Hloads, Hfs, Hsplit, (assoc_L (++)). cbn.
    split_and!; [done | by rewrite (right_id_L [] (++)) | done | done |].
    by exists evs.
Qed.

(** X19. When the web loader answers by the URL alone, the documents
    [process_urls] hands to the splitter are the documents of the URLs in
    the order of the URLs, a URL whose load failed giving none; when there
    is none at all the error is raised. *)
Theorem process_urls_gathers (lib : Library) (self : DocumentProcessor)
    (urls : list string) (h : list IoEvent) :
  (∀ h url, web_base_loader lib h url = web_base_loader lib [] url) →
  let loaded url := match web_base_loader lib [] url with
                    | Returned docs => docs | Raised _ => [] end in
  let docs := concat (loaded <$> urls) in
  ∃ evs,
    process_urls lib self urls h
    = match docs with
      | [] => (Raised (mkException "No documents could be loaded from the provided URLs"),
               h ++ evs)
      | _ :: _ => (splitter self (h ++ evs) docs, (h ++ evs) ++ [SplitDocs docs])
      end.
Proof.
  intros Hstateless loaded docs.
  destruct (extend_each_run (load_from_url lib) urls [] h (load_from_url_returns lib))
    as (out & evs & Hrun & _ & Hdocs & _).
  rewrite (Hdocs loaded) in Hrun.
  2: { intros x h0 l e H. apply load_from_url_events in H as (_ & _ & _ & ->).
       unfold loaded. by rewrite Hstateless. }
  exists evs. unfold process_urls, mbind, IO_bind. rewrite Hrun, finish_run.
  simpl app. fold docs. by destruct docs.
Qed.

Lemma process_urls_gathers_witness :
  ∃ evs,
    process_urls example_library example_processor
      ["https://a.example"; "https://down.example"; "https://b.example"] []
    = (Returned [mkDocument "https://a.example" None; mkDocument "https://b.example" None],
       evs).
Proof.
  destruct (process_urls_gathers example_library example_processor
              ["https://a.example"; "https://down.example"; "https://b.example"] []
              ltac:(done))
    as (evs & Hrun).
  eexists. exact Hrun.
Defined.

Lemma run_unique {A} (m : IO A) h a evs a' evs' :
  m h = (Returned a, h ++ evs) → m h = (Returned a', h ++ evs') → a = a' ∧ evs = evs'.
Proof. intros -> [= -> ->%app_inv_head]. done. Qed.

(** Go through an explicit list of events, none of which is a call of the
    web loader or the directory loader. *)
Ltac ok_events :=
  repeat (constructor;
          [first [by left | right; left; by eexists | right; right; by eexists] |]);
  by constructor.

(** One file: it returns when the query of the file system returns; it
    asks the file system once, at most one loader, and neither the web
    loader, the directory loader nor the splitter. *)
Lemma load_from_file_events (lib : Library) file_path h :
  (∀ h p, ∃ found, fs_exists lib h p = Returned found) →
  ∃ loaded evs,
    load_from_file lib file_path h = (Returned loaded, h ++ evs)
    ∧ List.filter is_fs_query evs = [FsExists (to_path lib file_path)]
    ∧ length (List.filter is_load evs) ≤ 1
    ∧ List.filter is_split evs = []
    ∧ Forall (λ ev, ∀ x, ev ≠ WebLoad x ∧ ev ≠ PdfDirLoad x) evs.
Proof.
  intros Hfs. destruct (Hfs h (to_path lib file_path)) as [found Hfound].
  rewrite (load_from_file_run lib file_path h found Hfound).
  set (p := to_path lib file_path).
  assert (Hok : ∀ evs : list IoEvent,
            Forall (λ ev, is_load ev = false ∨ (∃ q, ev = TextLoad q) ∨ ∃ q, ev = PdfLoad q) evs →
            Forall (λ ev, ∀ x, ev ≠ WebLoad x ∧ ev ≠ PdfDirLoad x) evs).
  { intros evs Hevs. eapply Forall_impl; [exact Hevs |].
    intros ev [Hev | [[q ->] | [q ->]]] x; [| done..].
    split; intros ->; done. }
  destruct found; cbn [negb]; cbv iota.
  - destruct (decide (_ = ".pdf")).
    { rewrite load_from_pdf_run. cbn [path_text].
      destruct (py_pdf_loader lib _ p); rewrite <- (assoc_L (++)); eexists _, _;
        (split; [done |]); cbn; split_and!; try done; try lia;
        apply Hok; ok_events. }
    destruct (decide (_ ∈ _)).
    { rewrite load_from_txt_run. cbn [path_text].
      destruct (text_loader lib _ p); rewrite <- (assoc_L (++)); eexists _, _;
        (split; [done |]); cbn; split_and!; try done; try lia;
        apply Hok; ok_events. }
    eexists _, _. split; [done |]. cbn. split_and!; try done; try lia.
    apply Hok; ok_events.
  - eexists _, _. split; [done |]. cbn. split_and!; try done; try lia.
    apply Hok; ok_events.
Qed.

(** X20. When the file system answers, [process_files] checks every path
    once, in the order given, asks loaders at most as many times as there
    are paths, and never the web loader or the directory loader.  With no
    document loaded, as for an empty list of paths, it raises the error
    "No documents could be loaded from the provided files" and does not
    call the splitter; otherwise it calls the splitter once, last, on a
    list of documents that is not empty, and its outcome is the outcome of
    the splitter. *)
Theorem process_files_checks_all (lib : Library) (self : DocumentProcessor)
    (file_paths : list string) (h : list IoEvent) :
  (∀ h p, ∃ found, fs_exists lib h p = Returned found) →
  ∃ out evs docs,
    process_files lib self file_paths h = (out, h ++ evs)
    ∧ List.filter is_fs_query evs = (λ f, FsExists (path_normal lib f)) <$> file_paths
    ∧ length (List.filter is_load evs) ≤ length file_paths
    ∧ (∀ x, (WebLoad x ∉ evs) ∧ (PdfDirLoad x ∉ evs))
    ∧ (file_paths = [] → docs = [] ∧ evs = [])
    ∧ match docs with
      | [] =>
          out = Raised (mkException "No documents could be loaded from the provided files")
          ∧ List.filter is_split evs = []
      | _ :: _ =>
          List.filter is_split evs = [SplitDocs docs]
          ∧ ∃ before, evs = before ++ [SplitDocs docs]
                      ∧ out = splitter self (h ++ before) docs
      end.
Proof.
  intros Hfs.
  set (load := λ file_path, load_from_file lib (PStr file_path)).
  assert (Hitem : ∀ x h loaded evs, load x h = (Returned loaded, h ++ evs) →
            List.filter is_fs_query evs = [FsExists (path_normal lib x)]
            ∧ length (List.filter is_load evs) ≤ 1
            ∧ List.filter is_split evs = []
            ∧ Forall (λ ev, ∀ x, ev ≠ WebLoad x ∧ ev ≠ PdfDirLoad x) evs).
  { intros x h0 loaded evs Hrun.
    destruct (load_from_file_events lib (PStr x) h0 Hfs) as (l' & e' & Hrun' & Hprops).
    by destruct (run_unique _ _ _ _ _ _ Hrun Hrun') as [-> ->]. }
  destruct (extend_each_run load file_paths [] h) as (docs & evs & Hrun & Hev & _ & Hall & Hcount).
  { intros x h0. destruct (load_from_file_events lib (PStr x) h0 Hfs) as (l & e & Hr & _).
    by exists l, e. }
  pose proof (Hev is_fs_query (λ x, [FsExists (path_normal lib x)])
                (λ x h l e H, proj1 (Hitem x h l e H))) as Hqueries.
  pose proof (Hev is_split (λ _, [])
                (λ x h l e H, proj1 (proj2 (proj2 (Hitem x h l e H))))) as Hsplit.
  pose proof (Hcount is_load 1
                (λ x h l e H, proj1 (proj2 (Hitem x h l e H)))) as Hloads.
  pose proof (Hall (λ _ ev, ∀ x, ev ≠ WebLoad x ∧ ev ≠ PdfDirLoad x)
                (λ x h l e H, proj2 (proj2 (proj2 (Hitem x h l e H))))) as Hnever.
  rewrite concat_singletons in Hqueries. rewrite concat_nils in Hsplit.
  assert (Hnot : ∀ x, (WebLoad x ∉ evs) ∧ (PdfDirLoad x ∉ evs)).
  { intros x. split; intros Hin;
      apply (proj1 (Forall_forall _ _) Hnever) in Hin as (_ & _ & Hx);
      destruct (Hx x); done. }
  assert (Hempty : file_paths = [] → docs = [] ∧ evs = []).
  { intros ->. simpl in Hrun. injection Hrun as -> Hh.
    split; [done |]. apply (app_inv_head h). by rewrite (right_id_L [] (++)). }
  unfold process_files, mbind, IO_bind. fold load. rewrite Hrun, finish_run.
  destruct docs as [|doc docs].
  - exists (Raised (mkException "No documents could be loaded from the provided files")),
      evs, []. split_and!; try done. lia.
  - eexists _, (evs ++ [SplitDocs (doc :: docs)]), (doc :: docs).
    rewrite !List.filter_app, Hqueries, Hsplit, (assoc_L (++)). cbn.
    split_and!; [done | by rewrite (right_id_L [] (++)) | | | | done |].
    + rewrite length_app. simpl. lia.
    + intros x. destruct (Hnot x) as [Hw Hd].
      split; intros [Hin | Hin]%elem_of_app; try done;
        apply list_elem_of_singleton in Hin; done.
    + intros Hnil. by destruct (Hempty Hnil).
    + by exists evs.
Qed.

Lemma process_files_checks_all_witness :
  ∃ evs,
    process_files example_library example_processor ["notes.docx"; "missing.txt"] []
    = (Raised (mkException "No documents could be loaded from the provided files"), evs)
    ∧ List.filter is_load evs = [].
Proof.
  destruct (process_files_checks_all example_library example_processor
              ["notes.docx"; "missing.txt"] [])
    as (out & evs & docs & Hrun & _).
  - intros h p. by eexists.
  - exists evs. revert Hrun. vm_compute. intros [= <- <-]. done.
Defined.

(** One source of [load_documents]. *)
Lemma load_source_events (lib : Library) src h :
  (∀ h p, ∃ found, fs_exists lib h p = Returned found) →
  (∀ h p, ∃ file, fs_is_file lib h p = Returned file) →
  (∀ h p, ∃ dir, fs_is_dir lib h p = Returned dir) →
  ∃ loaded evs,
    load_source lib src h = (Returned loaded, h ++ evs)
    ∧ List.filter is_split evs = []
    ∧ Forall (λ ev,
        if Py.startswith "http://" src || Py.startswith "https://" src
        then is_fs_query ev = false ∧ ∀ url, ev = WebLoad url → url = src
        else ∀ url, ev ≠ WebLoad url) evs.
Proof.
  intros Hexists Hfile Hdir. unfold load_source.
  destruct (Py.startswith "http://" src || Py.startswith "https://" src).
  - rewrite load_from_url_run.
    destruct (web_base_loader lib h src); eexists _, _; (split; [done |]);
      (split; [done |]); repeat constructor; by intros url [= ->].
  - set (path := path_normal lib src).
    destruct (Hfile h path) as [file Hf].
    unfold mbind at 1. unfold IO_bind at 1. unfold io_call at 1. cbv beta.
    rewrite Hf. cbv beta iota.
    destruct file.
    + destruct (load_from_file_events lib (PPath path) (h ++ [FsIsFile path]) Hexists)
        as (loaded & evs & Hrun & _ & _ & Hsplit & Hnever).
      rewrite Hrun, <- (assoc_L (++)). eexists _, _. split; [done |].
      split; [done |]. constructor; [done |].
      eapply Forall_impl; [exact Hnever |]. intros ev Hev url. apply Hev.
    + destruct (Hdir (h ++ [FsIsFile path]) path) as [dir Hd].
      unfold mbind at 1. unfold IO_bind at 1. unfold io_call at 1. cbv beta.
      rewrite Hd. cbv beta iota.
      destruct dir.
      * rewrite load_from_pdf_dir_run. cbn [path_text].
        destruct (py_pdf_directory_loader lib _ path); rewrite <- !(assoc_L (++));
          eexists _, _; (split; [done |]); (split; [done |]); by repeat constructor.
      * unfold io_print, mbind, IO_bind, mret, IO_ret. rewrite <- !(assoc_L (++)).
        eexists _, _. split; [done |]. split; [done |]. by repeat constructor.
Qed.

(** X21. When the file system answers, [load_documents] never raises and
    never calls the splitter.  It asks the web loader only for sources of
    the list that start with "http://" or "https://", and it looks at
    the file system only when some source does not start so. *)
Theorem load_documents_routing (lib : Library) (sources : list string)
    (h : list IoEvent) :
  (∀ h p, ∃ found, fs_exists lib h p = Returned found) →
  (∀ h p, ∃ file, fs_is_file lib h p = Returned file) →
  (∀ h p, ∃ dir, fs_is_dir lib h p = Returned dir) →
  ∃ docs evs,
    load_documents lib sources h = (Returned docs, h ++ evs)
    ∧ List.filter is_split evs = []
    ∧ (∀ url, WebLoad url ∈ evs →
         url ∈ sources
         ∧ Py.startswith "http://" url || Py.startswith "https://" url = true)
    ∧ (∀ ev, ev ∈ evs → is_fs_query ev = true →
         ∃ src, src ∈ sources
                ∧ Py.startswith "http://" src || Py.startswith "https://" src = false).
Proof.
  intros Hexists Hfile Hdir.
  assert (Hitem : ∀ x h loaded evs, load_source lib x h = (Returned loaded, h ++ evs) →
            List.filter is_split evs = []
            ∧ Forall (λ ev,
                if Py.startswith "http://" x || Py.startswith "https://" x
                then is_fs_query ev = false ∧ ∀ url, ev = WebLoad url → url = x
                else ∀ url, ev ≠ WebLoad url) evs).
  { intros x h0 loaded evs Hrun.
    destruct (load_source_events lib x h0 Hexists Hfile Hdir) as (l' & e' & Hrun' & Hprops).
    by destruct (run_unique _ _ _ _ _ _ Hrun Hrun') as [-> ->]. }
  destruct (extend_each_run (load_source lib) sources [] h)
    as (docs & evs & Hrun & Hev & _ & Hall & _).
  { intros x h0. destruct (load_source_events lib x h0 Hexists Hfile Hdir)
      as (l & e & Hr & _). by exists l, e. }
  pose proof (Hev is_split (λ _, []) (λ x h l e H, proj1 (Hitem x h l e H))) as Hsplit.
  rewrite concat_nils in Hsplit.
  pose proof (Hall _ (λ x h l e H, proj2 (Hitem x h l e H))) as Hroute.
  exists docs, evs. split; [exact Hrun |]. split; [done |]. split.
  - intros url Hin.
    apply (proj1 (Forall_forall _ _) Hroute) in Hin as (src & Hsrc & Hcase).
    destruct (Py.startswith "http://" src || Py.startswith "https://" src) eqn:Hurl.
    + destruct Hcase as [_ Heq]. rewrite (Heq url eq_refl). by split.
    + by destruct (Hcase url).
  - intros ev Hin Hquery.
    apply (proj1 (Forall_forall _ _) Hroute) in Hin as (src & Hsrc & Hcase).
    exists src. split; [done |].
    destruct (Py.startswith "http://" src || Py.startswith "https://" src); [| done].
    destruct Hcase as [Hno _]. congruence.
Qed.

Lemma load_documents_routing_witness :
  ∃ docs evs,
    load_documents example_library ["https://a.example"; "paper.PDF"] [] = (Returned docs, evs)
    ∧ ∀ url, WebLoad url ∈ evs → url ∈ ["https://a.example"; "paper.PDF"].
Proof.
  destruct (load_documents_routing example_library ["https://a.example"; "paper.PDF"] [])
    as (docs & evs & Hrun & _ & Hweb & _).
  - intros h p. by eexists.
  - intros h p. by eexists.
  - intros h p. by eexists.
  - exists docs, evs. split; [exact Hrun |]. intros url Hin. by apply Hweb.
Defined.

(** X22. When the file system answers, [process_mixed_sources] raises
    nothing that a loader raised.  With no document loaded it raises the
    error "No documents could be loaded from the provided sources" and
    does not call the splitter; otherwise it calls the splitter once,
    last, on a list of documents that is not empty, and its outcome is the
    outcome of the splitter. *)
Theorem process_mixed_sources_outcome (lib : Library) (self : DocumentProcessor)
    (sources : list string) (h : list IoEvent) :
  (∀ h p, ∃ found, fs_exists lib h p = Returned found) →
  (∀ h p, ∃ file, fs_is_file lib h p = Returned file) →
  (∀ h p, ∃ dir, fs_is_dir lib h p = Returned dir) →
  ∃ out evs docs,
    process_mixed_sources lib self sources h = (out, h ++ evs)
    ∧ match docs with
      | [] =>
          out = Raised (mkException "No documents could be loaded from the provided sources")
          ∧ List.filter is_split evs = []
      | _ :: _ =>
          List.filter is_split evs = [SplitDocs docs]
          ∧ ∃ before, evs = before ++ [SplitDocs docs]
                      ∧ out = splitter self (h ++ before) docs
      end.
Proof.
  intros Hexists Hfile Hdir.
  destruct (extend_each_run (load_source lib) sources [] h)
    as (docs & evs & Hrun & Hev & _).
  { intros x h0. destruct (load_source_events lib x h0 Hexists Hfile Hdir)
      as (l & e & Hr & _). by exists l, e. }
  assert (Hsplit : List.filter is_split evs = []).
  { rewrite (Hev is_split (λ _, [])); [apply concat_nils |].
    intros x h0 loaded evs0 Hrun0.
    destruct (load_source_events lib x h0 Hexists Hfile Hdir) as (l' & e' & Hrun' & Hs & _).
    by destruct (run_unique _ _ _ _ _ _ Hrun0 Hrun') as [-> ->]. }
  unfold process_mixed_sources, load_documents, mbind, IO_bind.
  rewrite Hrun, finish_run.
  destruct docs as [|doc docs].
  - by exists (Raised (mkException "No documents could be loaded from the provided sources")),
      evs, [].
  - eexists _, (evs ++ [SplitDocs (doc :: docs)]), (doc :: docs).
    rewrite List.filter_app, Hsplit, (assoc_L (++)). cbn.
    split_and!; [done | done |]. by exists evs.
Qed.

Lemma process_mixed_sources_outcome_witness :
  ∃ evs,
    process_mixed_sources example_library example_processor
      ["https://down.example"; "notes.docx"] []
    = (Raised (mkException "No documents could be loaded from the provided sources"), evs).
Proof.
  destruct (process_mixed_sources_outcome example_library example_processor
              ["https://down.example"; "notes.docx"] [])
    as (out & evs & docs & Hrun & _).
  - intros h p. by eexists.
  - intros h p. by eexists.
  - intros h p. by eexists.
  - exists evs. revert Hrun. vm_compute. by intros [= <- <-].
Defined.

End IngestionProperties.

(** ** The further properties at concrete turns *)

Section MoreWitnesses.
Import Py PyFacts.

Lemma retrieve_docs_new_turn_witness :
  ∃ new w',
    retrieve_docs (retrieving_nodes [paris_doc] "unused" "unused") 0
      (one_turn france_question []) = (Returned new, w')
    ∧ store w' !! new = Some (mkRAGState france_question [paris_doc] None).
Proof.
  destruct (retrieve_docs_new_turn (retrieving_nodes [paris_doc] "unused" "unused")
              0 (mkRAGState france_question [] None) (one_turn france_question [])
              [paris_doc] eq_refl eq_refl)
    as (new & w' & Hrun & _ & Hnew & _).
  by exists new, w'.
Defined.

Lemma retrieve_docs_failure_witness :
  ∃ w',
    retrieve_docs (failing_retriever_nodes "index not built") 0
      (one_turn france_question []) = (Raised (mkException "index not built"), w')
    ∧ store w' = store (one_turn france_question []).
Proof.
  destruct (retrieve_docs_failure (failing_retriever_nodes "index not built")
              0 (mkRAGState france_question [] None) (one_turn france_question [])
              (mkException "index not built") eq_refl eq_refl)
    as (w' & Hrun & Hstore & _).
  by exists w'.
Defined.

Lemma generate_answer_call_budget_witness :
  ∃ new w',
    generate_answer (answering_nodes "That is not mentioned." "Paris") 0
      (one_turn france_question [paris_doc]) = (Returned new, w')
    ∧ llm_invocations (events_since (one_turn france_question [paris_doc]) w') ≤ 2.
Proof.
  destruct (generate_answer_call_budget (answering_nodes "That is not mentioned." "Paris")
              0 (mkRAGState france_question [paris_doc] None)
              (one_turn france_question [paris_doc]) eq_refl)
    as (new & w' & Hrun & Hllm & _).
  by exists new, w'.
Defined.

Lemma generate_answer_llm_failure_witness :
  ∃ new w',
    generate_answer (failing_llm_nodes "quota exceeded" "Paris") 0
      (one_turn france_question [paris_doc]) = (Returned new, w')
    ∧ store w' !! new
      = Some (mkRAGState france_question [paris_doc]
                (Some "Error processing documents: quota exceeded"))
    ∧ wiki_runs (events_since (one_turn france_question [paris_doc]) w') = 0.
Proof.
  destruct (generate_answer_llm_failure (failing_llm_nodes "quota exceeded" "Paris")
              0 (mkRAGState france_question [paris_doc] None)
              (one_turn france_question [paris_doc]) (mkException "quota exceeded")
              eq_refl ltac:(discriminate) ltac:(reflexivity))
    as (new & w' & final & Hrun & Hnew & Hwiki & Hfinal).
  destruct (Hfinal eq_refl) as [-> _].
  by exists new, w'.
Defined.

Lemma retrieve_then_generate_witness :
  ∃ new w',
    (retrieve_docs (retrieving_nodes [] "unused" "unused") 0
     ≫= generate_answer (retrieving_nodes [] "unused" "unused"))
      (one_turn france_question [paris_doc]) = (Returned new, w')
    ∧ store w' !! new
      = Some (mkRAGState france_question []
                (Some "No relevant documents found in uploaded content."))
    ∧ llm_invocations (events_since (one_turn france_question [paris_doc]) w') = 0.
Proof.
  destruct (retrieve_then_generate (retrieving_nodes [] "unused" "unused")
              0 (mkRAGState france_question [paris_doc] None)
              (one_turn france_question [paris_doc]) [] eq_refl eq_refl)
    as (new & w' & final & Hrun & Hnew & _ & _ & _ & _ & _ & Hnone).
  destruct (Hnone eq_refl) as (-> & Hllm & _).
  by exists new, w'.
Defined.

Lemma answer_with_wikipedia_calls_witness :
  ∃ final w',
    answer_with_wikipedia (failing_wiki_nodes "unused" "offline") 0
      "That is not mentioned." (one_turn france_question [paris_doc]) = (Returned final, w')
    ∧ llm_invocations (events_since (one_turn france_question [paris_doc]) w') = 0.
Proof.
  destruct (answer_with_wikipedia_calls (failing_wiki_nodes "unused" "offline")
              0 (mkRAGState france_question [paris_doc] None)
              "That is not mentioned." (one_turn france_question [paris_doc]) eq_refl)
    as (final & w' & Hrun & _ & _ & Hcase).
  by exists final, w'.
Defined.

Lemma generate_answer_with_react_agent_answer_witness :
  ∃ new w',
    generate_answer_with_react_agent (answering_nodes "unused" "Paris") document_agent
      0 (one_turn france_question []) = (Returned new, w')
    ∧ store w' !! new
      = Some (mkRAGState france_question [] (Some "No documents available from uploads.")).
Proof.
  destruct (generate_answer_with_react_agent_answer (answering_nodes "unused" "Paris") document_agent
              0 (mkRAGState france_question [] None) (one_turn france_question [])
              (one_turn france_question [])
              (mkAgentResult (Some [mkAgentMessage (Some france_question);
                                    mkAgentMessage (Some no_documents_tool_answer)]))
              eq_refl eq_refl eq_refl)
    as (answer & Hrun & _ & before & answer_msg & Hlast & ->).
  eexists _, _. split; [exact Hrun |].
  cbn [store]. rewrite lookup_alloc_new. do 3 f_equal.
  destruct before as [|m1 [|m2 [|m3 before]]]; simplify_eq/=; try done.
  all: by destruct before.
Defined.

Lemma generate_answer_with_react_agent_failure_witness :
  generate_answer_with_react_agent (answering_nodes "unused" "Paris")
    (failing_agent "recursion limit reached") 0 (one_turn france_question [paris_doc])
  = (Raised (mkException "recursion limit reached"), one_turn france_question [paris_doc]).
Proof.
  apply (generate_answer_with_react_agent_failure (answering_nodes "unused" "Paris") (failing_agent "recursion limit reached")
           0 (mkRAGState france_question [paris_doc] None)); reflexivity.
Defined.

End MoreWitnesses.
